(** * The transactions routes of the ledger service

    A shallow embedding of [src/routes/transactions.ts]: the six Fastify
    routes registered by [transactionsRoutes], the zod schemas they parse
    requests with, and the knex queries they run against the single
    [transactions] table.

    Numbers.  A request body is the JSON document Fastify decoded, so an
    [amount] is a finite numeric literal; it is modelled as a rational
    ([Q]).  The only arithmetic the handlers perform on it is the
    multiplication by [-1], which is exact.

    Effects.  A handler runs in a small state-and-exception monad over a
    context holding the world (table, UUID source, store fault schedule),
    the reply object under construction and the trace of the steps taken
    (guard, validators, UUID draws, store calls, sends). *)

From Stdlib Require Import QArith ZArith Ascii String.
From stdpp Require Import base strings gmap list.

Set Warnings "-register-all".

(** ** JSON documents and requests *)

Inductive json :=
| JNull
| JBool (b : bool)
| JNum (q : Q)
| JStr (s : string)
| JArr (l : list json)
| JObj (m : gmap string json).

(** [request.cookies.sessionId], [request.params.id] and [request.body].
    A cookie that was not sent is [None] (JavaScript [undefined]); a body
    that was not sent is [None] as well. *)
Record Request := mkRequest {
  cookies_sessionId : option string;
  params_id : string;
  body : option json
}.

(** ** The [transactions] table *)

Record Transaction := mkTransaction {
  id : string;
  title : string;
  amount : Q;
  session_id : string
}.

(** ** zod schemas *)

Definition is_hex (a : ascii) : bool :=
  let n := nat_of_ascii a in
  ((48 <=? n)%nat && (n <=? 57)%nat)
  || ((65 <=? n)%nat && (n <=? 70)%nat)
  || ((97 <=? n)%nat && (n <=? 102)%nat).

Definition is_dash (a : ascii) : bool := (nat_of_ascii a =? 45)%nat.

Definition dash_position (i : nat) : bool :=
  (i =? 8)%nat || (i =? 13)%nat || (i =? 18)%nat || (i =? 23)%nat.

Fixpoint uuid_from (i : nat) (s : string) : bool :=
  match s with
  | EmptyString => (i =? 36)%nat
  | String a rest =>
      (if dash_position i then is_dash a else is_hex a) && uuid_from (S i) rest
  end.

(** [z.string().uuid()]: five groups of 8, 4, 4, 4 and 12 hexadecimal
    digits in either case, separated by hyphens. *)
Definition z_string_uuid (s : string) : bool := uuid_from 0 s.

(** [z.object({ id: z.string().uuid() })] applied to [request.params];
    a path parameter is always a string. *)
Definition getTransactionsParamsSchema (r : Request) : option string :=
  if z_string_uuid (params_id r) then Some (params_id r) else None.

(** [z.enum(['credit', 'debit'])] *)
Inductive transaction_type := credit | debit.

Definition z_enum_type (j : json) : option transaction_type :=
  match j with
  | JStr s =>
      if String.eqb s "credit" then Some credit
      else if String.eqb s "debit" then Some debit
      else None
  | _ => None
  end.

Definition z_string (j : json) : option string :=
  match j with JStr s => Some s | _ => None end.

Definition z_number (j : json) : option Q :=
  match j with JNum q => Some q | _ => None end.

(** The value of a successful body parse: [{ title, amount, type }]. *)
Record TransactionBody := mkBody {
  body_title : string;
  body_amount : Q;
  body_type : transaction_type
}.

(** [z.object({ title: z.string(), amount: z.number(),
               type: z.enum(['credit', 'debit']) })].
    The input has to be an object; keys the schema does not name are
    stripped, a missing key fails like a mistyped one. *)
Definition createTransactionBodySchema (b : option json) : option TransactionBody :=
  match b with
  | Some (JObj m) =>
      match m !! "title" ≫= z_string,
            m !! "amount" ≫= z_number,
            m !! "type" ≫= z_enum_type with
      | Some t, Some a, Some ty => Some (mkBody t a ty)
      | _, _, _ => None
      end
  | _ => None
  end.

(** The PUT handler declares the same schema under its own name. *)
Definition updateTransactionBodySchema := createTransactionBodySchema.

(** ** Replies *)

Inductive Payload :=
| PTransactions (transactions : list Transaction)
| PTransaction (transaction : Transaction)
| PSummary (summary_amount : option Q)
| PMessage (message : string)
| PError (error : string).

Record Cookie := mkCookie {
  cookie_name : string;
  cookie_value : string;
  cookie_path : string;
  cookie_maxAge : Z
}.

(** The Fastify reply object: [reply.code], [reply.send], [reply.setCookie].
    [payload] is [None] until something was sent. *)
Record Reply := mkReply {
  statusCode : Z;
  payload : option Payload;
  setCookies : list Cookie
}.

Definition fresh_reply : Reply := mkReply 200 None [].

(** ** Store queries, trace and world *)

Inductive query :=
| QSelectAll (session : string)
| QSelectFirst (tid session : string)
| QSum (session : string)
| QInsert (row : Transaction)
| QUpdate (tid session new_title : string) (new_amount : Q)
| QDelete (tid session : string).

Inductive schema_name := ParamsSchema | BodySchema.

Inductive event :=
| EvPreHandler
| EvParse (which : schema_name)
| EvRandomUUID (value : string)
| EvKnex (q : query)
| EvSetCookie (c : Cookie)
| EvSend (code : Z).

Definition is_store_call (e : event) : bool :=
  match e with EvKnex _ => true | _ => false end.

Definition is_validator_call (e : event) : bool :=
  match e with EvParse _ => true | _ => false end.

Definition is_write (e : event) : bool :=
  match e with
  | EvKnex (QInsert _) | EvKnex (QUpdate _ _ _ _) | EvKnex (QDelete _ _) => true
  | _ => false
  end.

(** What outlives a request: the table, the schedule of store faults (call
    number [n] is rejected when [faults n] holds), the number of store
    calls made so far, and the source [randomUUID] draws from. *)
Record World := mkWorld {
  table : list Transaction;
  faults : nat → bool;
  calls : nat;
  uuids : nat → string;
  drawn : nat
}.

Record Ctx := mkCtx {
  world : World;
  reply : Reply;
  trace : list event
}.

(** ** The handler monad *)

Inductive error := ZodError | KnexError.

Inductive outcome (A : Type) :=
| Returned (a : A)
| Thrown (e : error).
Arguments Returned {A} a.
Arguments Thrown {A} e.

Definition handler_m (A : Type) : Type := Ctx → outcome A * Ctx.

#[global] Instance handler_ret : MRet handler_m :=
  λ A a c, (Returned a, c).

#[global] Instance handler_bind : MBind handler_m :=
  λ A B f m c,
    match m c with
    | (Returned a, c') => f a c'
    | (Thrown e, c') => (Thrown e, c')
    end.

Definition throw {A} (e : error) : handler_m A := λ c, (Thrown e, c).

(** [try { body } catch (error) { handler }] *)
Definition try_catch (body : handler_m unit) (handler : error → handler_m unit)
  : handler_m unit :=
  λ c,
    match body c with
    | (Returned u, c') => (Returned u, c')
    | (Thrown e, c') => handler e c'
    end.

Definition log (e : event) : handler_m unit :=
  λ c, (Returned tt, mkCtx (world c) (reply c) (trace c ++ [e])).

(** [schema.parse(input)]: returns the parsed value or throws. *)
Definition parse {A} (which : schema_name) (result : option A) : handler_m A :=
  log (EvParse which);;
  match result with
  | Some a => mret a
  | None => throw ZodError
  end.

Definition randomUUID : handler_m string :=
  λ c,
    let w := world c in
    let u := uuids w (drawn w) in
    (Returned u,
     mkCtx (mkWorld (table w) (faults w) (calls w) (uuids w) (S (drawn w)))
           (reply c) (trace c ++ [EvRandomUUID u])).

(** [reply.setCookie(name, value, options)] *)
Definition reply_setCookie (k : Cookie) : handler_m unit :=
  λ c,
    (Returned tt,
     mkCtx (world c)
           (mkReply (statusCode (reply c)) (payload (reply c))
                    (setCookies (reply c) ++ [k]))
           (trace c ++ [EvSetCookie k])).

(** [reply.code(n).send(p)] *)
Definition reply_code_send (n : Z) (p : Payload) : handler_m unit :=
  λ c,
    (Returned tt,
     mkCtx (world c) (mkReply n (Some p) (setCookies (reply c)))
           (trace c ++ [EvSend n])).

(** ** Store access through knex *)

(** knex refuses to build a query one of whose bindings is [undefined]:
    the promise rejects before anything reaches the store. *)
Definition binding (v : option string) : handler_m string :=
  match v with
  | Some s => mret s
  | None => throw KnexError
  end.

(** Modelled from the spec: the knex instance comes from the module [../database],
    which is not among the sources.  Section 4.3 gives the queries their
    meaning over the single [transactions] table, kept here in insertion
    order.  One round trip: the call is recorded and counted, then the
    store either rejects it (an unexpected failure, section 7) or runs it
    on the table. *)
Definition knex {A} (q : query)
    (run : list Transaction → A * list Transaction) : handler_m A :=
  λ c,
    let w := world c in
    let tr := trace c ++ [EvKnex q] in
    if faults w (calls w)
    then (Thrown KnexError,
          mkCtx (mkWorld (table w) (faults w) (S (calls w)) (uuids w) (drawn w))
                (reply c) tr)
    else
      let '(a, t') := run (table w) in
      (Returned a,
       mkCtx (mkWorld t' (faults w) (S (calls w)) (uuids w) (drawn w))
             (reply c) tr).

(** [.where('session_id', sessionId)] *)
Definition of_session (s : string) (r : Transaction) : Prop :=
  session_id r = s.

(** [.where({ id, session_id: sessionId })] *)
Definition of_id_session (tid s : string) (r : Transaction) : Prop :=
  id r = tid ∧ session_id r = s.

#[global] Instance of_session_dec s r : Decision (of_session s r).
Proof. unfold of_session. apply _. Defined.

#[global] Instance of_id_session_dec tid s r : Decision (of_id_session tid s r).
Proof. unfold of_id_session. apply _. Defined.

Definition sum_amounts (rows : list Transaction) : Q :=
  foldr (λ r acc, (amount r + acc)%Q) (0 # 1) rows.

(** SQL [SUM]: [NULL] over no rows. *)
Definition sql_sum (rows : list Transaction) : option Q :=
  match rows with
  | [] => None
  | _ :: _ => Some (sum_amounts rows)
  end.

(** [knex('transactions').where('session_id', sessionId).select('*')] *)
Definition knex_select (sessionId : option string) : handler_m (list Transaction) :=
  s ← binding sessionId;
  knex (QSelectAll s) (λ t, (filter (of_session s) t, t)).

(** [knex('transactions').where({ id, session_id }).first()] *)
Definition knex_first (tid : string) (sessionId : option string)
  : handler_m (option Transaction) :=
  s ← binding sessionId;
  knex (QSelectFirst tid s) (λ t, (head (filter (of_id_session tid s) t), t)).

(** [knex('transactions').where('session_id', sessionId)
      .sum('amount', { as: 'amount' }).first()] *)
Definition knex_sum (sessionId : option string) : handler_m (option Q) :=
  s ← binding sessionId;
  knex (QSum s) (λ t, (sql_sum (filter (of_session s) t), t)).

(** [knex('transactions').insert(row)] *)
Definition knex_insert (row : Transaction) : handler_m unit :=
  knex (QInsert row) (λ t, (tt, t ++ [row])).

Definition set_title_amount (new_title : string) (new_amount : Q)
    (r : Transaction) : Transaction :=
  mkTransaction (id r) new_title new_amount (session_id r).

(** [knex('transactions').where({ id, session_id }).update({ title, amount })] *)
Definition knex_update (tid : string) (sessionId : option string)
    (new_title : string) (new_amount : Q) : handler_m unit :=
  s ← binding sessionId;
  knex (QUpdate tid s new_title new_amount)
       (λ t, (tt, (λ r, if decide (of_id_session tid s r)
                        then set_title_amount new_title new_amount r
                        else r) <$> t)).

(** [knex('transactions').where({ id, session_id }).del()] *)
Definition knex_del (tid : string) (sessionId : option string) : handler_m unit :=
  s ← binding sessionId;
  knex (QDelete tid s) (λ t, (tt, filter (λ r, ¬ of_id_session tid s r) t)).

(** ** The session guard *)

(** Modelled from the spec: the preHandler [checkSessionIdExists] lives in
    [src/middlewares/check-session-id-exists.ts], which is not among the
    sources.  Its contract (section 4.1): extract the [sessionId] cookie;
    if it is absent, halt with a 401 reply; otherwise let the request
    through.  The body of the 401 reply is not specified. *)
Definition checkSessionIdExists (request : Request) : handler_m unit :=
  match cookies_sessionId request with
  | None => reply_code_send 401 (PError "Unauthorized")
  | Some _ => mret tt
  end.

(** ** The six handlers *)

Definition internal_server_error (_ : error) : handler_m unit :=
  reply_code_send 500 (PError "Internal Server Error").

(** [GET /] *)
Definition list_transactions (request : Request) : handler_m unit :=
  try_catch
    (let sessionId := cookies_sessionId request in
     transactions ← knex_select sessionId;
     reply_code_send 200 (PTransactions transactions))
    internal_server_error.

(** [GET /:id] *)
Definition get_transaction (request : Request) : handler_m unit :=
  try_catch
    (tid ← parse ParamsSchema (getTransactionsParamsSchema request);
     let sessionId := cookies_sessionId request in
     transaction ← knex_first tid sessionId;
     match transaction with
     | None => reply_code_send 404 (PMessage "Transaction not found")
     | Some t => reply_code_send 200 (PTransaction t)
     end)
    internal_server_error.

(** [GET /summary]; its [console.log] and [console.error] calls only write
    diagnostics and are left out. *)
Definition get_summary (request : Request) : handler_m unit :=
  try_catch
    (let sessionId := cookies_sessionId request in
     summary ← knex_sum sessionId;
     reply_code_send 200 (PSummary summary))
    internal_server_error.

(** [!sessionId]: [undefined] and the empty string are falsy. *)
Definition falsy (v : option string) : bool :=
  match v with
  | None => true
  | Some s => String.eqb s ""
  end.

(** [POST /].  When the cookie is truthy it is the string the insert
    binds as [session_id]. *)
Definition create_transaction (request : Request) : handler_m unit :=
  try_catch
    (b ← parse BodySchema (createTransactionBodySchema (body request));
     sessionId ←
       (if falsy (cookies_sessionId request)
        then
          minted ← randomUUID;
          reply_setCookie
            (mkCookie "sessionId" minted "/" (1000 * 60 * 60 * 24 * 7));;
          mret minted
        else binding (cookies_sessionId request));
     new_id ← randomUUID;
     knex_insert
       (mkTransaction new_id (body_title b)
          (match body_type b with
           | credit => body_amount b
           | debit => (body_amount b * (-1 # 1))%Q
           end)
          sessionId);;
     reply_code_send 201 (PMessage "Transaction created successfully"))
    internal_server_error.

(** [PUT /:id]; the body schema is declared and applied in the branch
    that found the row. *)
Definition update_transaction (request : Request) : handler_m unit :=
  try_catch
    (tid ← parse ParamsSchema (getTransactionsParamsSchema request);
     let sessionId := cookies_sessionId request in
     transaction ← knex_first tid sessionId;
     match transaction with
     | None => reply_code_send 404 (PMessage "Transaction not found")
     | Some _ =>
         b ← parse BodySchema (updateTransactionBodySchema (body request));
         knex_update tid sessionId (body_title b)
           (match body_type b with
            | credit => body_amount b
            | debit => (body_amount b * (-1 # 1))%Q
            end);;
         reply_code_send 200 (PMessage "Transaction updated successfully")
     end)
    internal_server_error.

(** [DELETE /:id] *)
Definition delete_transaction (request : Request) : handler_m unit :=
  try_catch
    (tid ← parse ParamsSchema (getTransactionsParamsSchema request);
     let sessionId := cookies_sessionId request in
     transaction ← knex_first tid sessionId;
     match transaction with
     | None => reply_code_send 404 (PMessage "Transaction not found")
     | Some _ =>
         knex_del tid sessionId;;
         reply_code_send 200 (PMessage "Transaction deleted successfully")
     end)
    internal_server_error.

(** ** Route registration and the request lifecycle *)

Definition hook : Type := Request → handler_m unit.

Record Route := mkRoute {
  preHandler : list hook;
  handler : Request → handler_m unit
}.

Inductive operation :=
| GET_root | GET_id | GET_summary | POST_root | PUT_id | DELETE_id.

#[global] Instance operation_eq_dec : EqDecision operation.
Proof. solve_decision. Defined.

Definition transactionsRoutes (op : operation) : Route :=
  match op with
  | GET_root => mkRoute [checkSessionIdExists] list_transactions
  | GET_id => mkRoute [checkSessionIdExists] get_transaction
  | GET_summary => mkRoute [checkSessionIdExists] get_summary
  | POST_root => mkRoute [] create_transaction
  | PUT_id => mkRoute [checkSessionIdExists] update_transaction
  | DELETE_id => mkRoute [checkSessionIdExists] delete_transaction
  end.

Definition reply_sent : handler_m bool :=
  λ c, (Returned (if payload (reply c) is Some _ then true else false), c).

(** Fastify runs the preHandler hooks in order and skips what is left of
    the lifecycle, the handler included, once a hook has sent the reply. *)
Fixpoint run_preHandlers (hooks : list hook) (request : Request) : handler_m bool :=
  match hooks with
  | [] => mret false
  | h :: rest =>
      log EvPreHandler;;
      h request;;
      sent ← reply_sent;
      if sent : bool then mret true else run_preHandlers rest request
  end.

Definition lifecycle (route : Route) (request : Request) : handler_m unit :=
  sent ← run_preHandlers (preHandler route) request;
  if sent : bool then mret tt else handler route request.

(** Serving one request: the context the exchange ends in. *)
Definition serve (op : operation) (request : Request) (w : World) : Ctx :=
  snd (lifecycle (transactionsRoutes op) request (mkCtx w fresh_reply [])).

(** ** Vocabulary of the specification *)

(** The store answers every call. *)
Definition healthy (w : World) : Prop := ∀ n, faults w n = false.

(** A 400-class status. *)
Definition client_error (code : Z) : Prop := (400 ≤ code < 500)%Z.

(** The sign-adjustment rule in the specification's words:
    [type == credit ? amount : -amount]. *)
Definition sign_adjusted (ty : transaction_type) (a : Q) : Q :=
  match ty with
  | credit => a
  | debit => (- a)%Q
  end.

(** The caller-side normalisation of a [null] sum. *)
Definition null_as_zero (a : option Q) : Q := default (0 # 1) a.

Definition title_is_string (m : gmap string json) : Prop :=
  ∃ t, m !! "title" = Some (JStr t).

Definition amount_is_number (m : gmap string json) : Prop :=
  ∃ a, m !! "amount" = Some (JNum a).

Definition type_is_credit_or_debit (m : gmap string json) : Prop :=
  m !! "type" = Some (JStr "credit") ∨ m !! "type" = Some (JStr "debit").

(** A body that fails validation, in the specification's words: its title
    is not a string, its amount is not a number or its type is not exactly
    credit or debit; a body that is no object has none of the fields. *)
Definition body_fails_validation (b : option json) : Prop :=
  match b with
  | Some (JObj m) =>
      ¬ title_is_string m ∨ ¬ amount_is_number m ∨ ¬ type_is_credit_or_debit m
  | _ => True
  end.

(** The requests that fail input validation, per operation. *)
Definition validation_error (op : operation) (request : Request) : Prop :=
  match op with
  | GET_id | DELETE_id => z_string_uuid (params_id request) = false
  | POST_root => body_fails_validation (body request)
  | PUT_id =>
      z_string_uuid (params_id request) = false
      ∨ body_fails_validation (body request)
  | GET_root | GET_summary => False
  end.

(** The transaction id a reply hands to the client, if any. *)
Definition returned_id (r : Reply) : option string :=
  match payload r with
  | Some (PTransaction t) => Some (id t)
  | _ => None
  end.

Definition no_store_call (tr : list event) : Prop :=
  Forall (λ e, is_store_call e = false) tr.

Definition no_validator_call (tr : list event) : Prop :=
  Forall (λ e, is_validator_call e = false) tr.

Definition no_write (tr : list event) : Prop :=
  Forall (λ e, is_write e = false) tr.

Definition error_reply : Reply :=
  mkReply 500 (Some (PError "Internal Server Error")) [].

Definition not_found_reply : Reply :=
  mkReply 404 (Some (PMessage "Transaction not found")) [].

(** The world after one more store call that left the table as [t]. *)
Definition after_call (w : World) (t : list Transaction) : World :=
  mkWorld t (faults w) (S (calls w)) (uuids w) (drawn w).

(** ** Sample data *)

Definition uuid_a : string := "11111111-1111-4111-8111-111111111111".
Definition uuid_b : string := "22222222-2222-4222-8222-222222222222".
Definition uuid_c : string := "33333333-3333-4333-8333-333333333333".
Definition uuid_d : string := "44444444-4444-4444-8444-444444444444".

Definition sample_source (n : nat) : string :=
  match n with
  | 0 => uuid_a
  | 1 => uuid_b
  | 2 => uuid_c
  | _ => uuid_d
  end.

Definition empty_world : World := mkWorld [] (λ _, false) 0 sample_source 0.

Definition body_of (t : string) (a : Q) (ty : string) : json :=
  JObj (<["title" := JStr t]> (<["amount" := JNum a]> (<["type" := JStr ty]> ∅))).

Definition salary : json := body_of "Salary" (5000 # 1) "credit".
Definition rent : json := body_of "Rent" (1200 # 1) "debit".

(** A JSON object the body schema rejects: its type is neither literal. *)
Definition loan : json := body_of "Loan" (300 # 1) "loan".

(** A table holding one transaction of session [uuid_a]. *)
Definition salary_row : Transaction :=
  mkTransaction uuid_b "Salary" (5000 # 1) uuid_a.

Definition salary_world : World :=
  mkWorld [salary_row] (λ _, false) 1 sample_source 2.

(** The amount both writers store:
    [type === 'credit' ? amount : amount * -1]. *)
Definition stored_amount (b : TransactionBody) : Q :=
  match body_type b with
  | credit => body_amount b
  | debit => (body_amount b * (-1 # 1))%Q
  end.

(** The row the create handler inserts and the cookie it sets. *)
Definition created_row (new_id session : string) (b : TransactionBody) : Transaction :=
  mkTransaction new_id (body_title b) (stored_amount b) session.

Definition session_cookie (value : string) : Cookie :=
  mkCookie "sessionId" value "/" (1000 * 60 * 60 * 24 * 7).

(** The first three steps of an update or delete that passed the guard
    with a canonical id. *)
Definition existence_check (tid s : string) : list event :=
  [EvPreHandler; EvParse ParamsSchema; EvKnex (QSelectFirst tid s)].

(** The table the update handler's write leaves. *)
Definition updated_table (tid s : string) (b : TransactionBody)
    (t : list Transaction) : list Transaction :=
  (λ r, if decide (of_id_session tid s r)
        then set_title_amount (body_title b) (stored_amount b) r
        else r) <$> t.


(** ** Vocabulary of the further properties *)

(** The table the delete handler's write leaves. *)
Definition deleted_table (tid s : string) (t : list Transaction)
  : list Transaction :=
  filter (λ r, ¬ of_id_session tid s r) t.

Definition is_send (e : event) : bool :=
  match e with EvSend _ => true | _ => false end.

Definition is_uuid_draw (e : event) : bool :=
  match e with EvRandomUUID _ => true | _ => false end.

(** The three routes that only read. *)
Definition read_only (op : operation) : Prop :=
  op = GET_root ∨ op = GET_id ∨ op = GET_summary.

(** A table with a second session: the rent of session [uuid_d]. *)
Definition rent_row : Transaction :=
  mkTransaction uuid_c "Rent" (-1200 # 1) uuid_d.

Definition two_session_world : World :=
  mkWorld [salary_row; rent_row] (λ _, false) 2 sample_source 3.

(** The status codes each route sends. *)
Definition possible_status (op : operation) : list Z :=
  match op with
  | GET_root | GET_summary => [200; 401; 500]%Z
  | GET_id | PUT_id | DELETE_id => [200; 401; 404; 500]%Z
  | POST_root => [201; 500]%Z
  end.

(** The number of replies sent in a trace. *)
Definition sends (tr : list event) : nat := length (List.filter is_send tr).

(** The number of store calls in a trace. *)
Definition store_calls (tr : list event) : nat :=
  length (List.filter is_store_call tr).
(** ** Symbolic execution of the handlers *)

Ltac step :=
  cbv [serve lifecycle transactionsRoutes preHandler handler run_preHandlers
       checkSessionIdExists list_transactions get_transaction get_summary
       create_transaction update_transaction delete_transaction
       internal_server_error try_catch parse log throw randomUUID
       reply_setCookie reply_code_send knex_select knex_first knex_sum
       knex_insert knex_update knex_del knex binding reply_sent
       mbind mret handler_bind handler_ret fresh_reply
       getTransactionsParamsSchema updateTransactionBodySchema];
  cbn [world reply trace table faults calls uuids drawn statusCode payload
       setCookies fst snd app].

Lemma serve_unauthenticated op req w :
  op ≠ POST_root →
  cookies_sessionId req = None →
  serve op req w =
  mkCtx w (mkReply 401 (Some (PError "Unauthorized")) [])
        [EvPreHandler; EvSend 401].
Proof.
  intros Hop Hc. destruct op; try congruence; step; rewrite Hc; reflexivity.
Qed.

Lemma serve_invalid_id op req w s :
  op = GET_id ∨ op = PUT_id ∨ op = DELETE_id →
  cookies_sessionId req = Some s →
  z_string_uuid (params_id req) = false →
  serve op req w =
  mkCtx w error_reply [EvPreHandler; EvParse ParamsSchema; EvSend 500].
Proof.
  intros [-> | [-> | ->]] Hc Hu; step; rewrite Hc, Hu; reflexivity.
Qed.

Lemma serve_create_invalid req w :
  createTransactionBodySchema (body req) = None →
  serve POST_root req w = mkCtx w error_reply [EvParse BodySchema; EvSend 500].
Proof. intros Hb. step. rewrite Hb. reflexivity. Qed.

Lemma falsy_present s : s ≠ "" → falsy (Some s) = false.
Proof. intros Hs. cbn. apply String.eqb_neq. exact Hs. Qed.

Lemma serve_create_minted req w b :
  createTransactionBodySchema (body req) = Some b →
  falsy (cookies_sessionId req) = true →
  faults w (calls w) = false →
  let s := uuids w (drawn w) in
  let row := created_row (uuids w (S (drawn w))) s b in
  serve POST_root req w =
  mkCtx (mkWorld (table w ++ [row]) (faults w) (S (calls w)) (uuids w)
                 (S (S (drawn w))))
        (mkReply 201 (Some (PMessage "Transaction created successfully"))
                 [session_cookie s])
        [EvParse BodySchema; EvRandomUUID s; EvSetCookie (session_cookie s);
         EvRandomUUID (uuids w (S (drawn w))); EvKnex (QInsert row); EvSend 201].
Proof.
  intros Hb Hc Hf. step. rewrite Hb. step. rewrite Hc. step. rewrite Hf.
  reflexivity.
Qed.

Lemma serve_create_reused req w b s :
  createTransactionBodySchema (body req) = Some b →
  cookies_sessionId req = Some s →
  s ≠ "" →
  faults w (calls w) = false →
  let row := created_row (uuids w (drawn w)) s b in
  serve POST_root req w =
  mkCtx (mkWorld (table w ++ [row]) (faults w) (S (calls w)) (uuids w)
                 (S (drawn w)))
        (mkReply 201 (Some (PMessage "Transaction created successfully")) [])
        [EvParse BodySchema; EvRandomUUID (uuids w (drawn w));
         EvKnex (QInsert row); EvSend 201].
Proof.
  intros Hb Hc Hs Hf. step. rewrite Hb. step. rewrite Hc.
  rewrite (falsy_present s Hs). step. rewrite Hf. reflexivity.
Qed.

Lemma serve_list req w s :
  cookies_sessionId req = Some s →
  faults w (calls w) = false →
  serve GET_root req w =
  mkCtx (after_call w (table w))
        (mkReply 200 (Some (PTransactions (filter (of_session s) (table w)))) [])
        [EvPreHandler; EvKnex (QSelectAll s); EvSend 200].
Proof. intros Hc Hf. step. rewrite Hc. step. rewrite Hf. reflexivity. Qed.

Lemma serve_summary req w s :
  cookies_sessionId req = Some s →
  faults w (calls w) = false →
  serve GET_summary req w =
  mkCtx (after_call w (table w))
        (mkReply 200 (Some (PSummary (sql_sum (filter (of_session s) (table w))))) [])
        [EvPreHandler; EvKnex (QSum s); EvSend 200].
Proof. intros Hc Hf. step. rewrite Hc. step. rewrite Hf. reflexivity. Qed.

Lemma serve_get_one req w s :
  cookies_sessionId req = Some s →
  z_string_uuid (params_id req) = true →
  faults w (calls w) = false →
  serve GET_id req w =
  mkCtx (after_call w (table w))
        (match head (filter (of_id_session (params_id req) s) (table w)) with
         | None => not_found_reply
         | Some t => mkReply 200 (Some (PTransaction t)) []
         end)
        ([EvPreHandler; EvParse ParamsSchema;
          EvKnex (QSelectFirst (params_id req) s)]
         ++ [EvSend (if head (filter (of_id_session (params_id req) s) (table w))
                     is Some _ then 200 else 404)%Z]).
Proof.
  intros Hc Hu Hf. step. rewrite Hc, Hu. step. rewrite Hf.
  destruct (head _); reflexivity.
Qed.

Lemma serve_read_store_down op req w s :
  op = GET_root ∨ op = GET_summary ∨ op = GET_id →
  cookies_sessionId req = Some s →
  (op = GET_id → z_string_uuid (params_id req) = true) →
  faults w (calls w) = true →
  reply (serve op req w) = error_reply
  ∧ world (serve op req w) = after_call w (table w).
Proof.
  intros [-> | [-> | ->]] Hc Hu Hf; step; rewrite Hc; step.
  - by rewrite Hf.
  - by rewrite Hf.
  - rewrite Hu by done. step. by rewrite Hf.
Qed.

Lemma serve_update_store_down req w s :
  cookies_sessionId req = Some s →
  z_string_uuid (params_id req) = true →
  faults w (calls w) = true →
  serve PUT_id req w =
  mkCtx (after_call w (table w)) error_reply
        (existence_check (params_id req) s ++ [EvSend 500]).
Proof. intros Hc Hu Hf. step. rewrite Hc, Hu. step. rewrite Hf. reflexivity. Qed.

Lemma serve_update_not_found req w s :
  cookies_sessionId req = Some s →
  z_string_uuid (params_id req) = true →
  faults w (calls w) = false →
  head (filter (of_id_session (params_id req) s) (table w)) = None →
  serve PUT_id req w =
  mkCtx (after_call w (table w)) not_found_reply
        (existence_check (params_id req) s ++ [EvSend 404]).
Proof.
  intros Hc Hu Hf Hh. step. rewrite Hc, Hu. step. rewrite Hf, Hh. reflexivity.
Qed.

Lemma serve_update_invalid_body req w s t :
  cookies_sessionId req = Some s →
  z_string_uuid (params_id req) = true →
  faults w (calls w) = false →
  head (filter (of_id_session (params_id req) s) (table w)) = Some t →
  createTransactionBodySchema (body req) = None →
  serve PUT_id req w =
  mkCtx (after_call w (table w)) error_reply
        (existence_check (params_id req) s ++ [EvParse BodySchema; EvSend 500]).
Proof.
  intros Hc Hu Hf Hh Hb. step. rewrite Hc, Hu. step. rewrite Hf, Hh. step.
  rewrite Hb. reflexivity.
Qed.

Lemma serve_update_ok req w s t b :
  cookies_sessionId req = Some s →
  z_string_uuid (params_id req) = true →
  faults w (calls w) = false →
  faults w (S (calls w)) = false →
  head (filter (of_id_session (params_id req) s) (table w)) = Some t →
  createTransactionBodySchema (body req) = Some b →
  serve PUT_id req w =
  mkCtx (after_call (after_call w (table w))
           (updated_table (params_id req) s b (table w)))
        (mkReply 200 (Some (PMessage "Transaction updated successfully")) [])
        (existence_check (params_id req) s
         ++ [EvParse BodySchema;
             EvKnex (QUpdate (params_id req) s (body_title b)
                       (stored_amount b));
             EvSend 200]).
Proof.
  intros Hc Hu Hf Hf2 Hh Hb. step. rewrite Hc, Hu. step. rewrite Hf, Hh. step.
  rewrite Hb. step. rewrite Hf2. reflexivity.
Qed.

(** ** The body schema rejects exactly the malformed bodies *)

Lemma title_rejected m :
  m !! "title" ≫= z_string = None ↔ ¬ title_is_string m.
Proof.
  unfold title_is_string. destruct (m !! "title") as [[]|]; cbn;
    split; try done; try (intros _ [t Ht]; discriminate).
  intros H. exfalso. apply H. eauto.
Qed.

Lemma amount_rejected m :
  m !! "amount" ≫= z_number = None ↔ ¬ amount_is_number m.
Proof.
  unfold amount_is_number. destruct (m !! "amount") as [[]|]; cbn;
    split; try done; try (intros _ [t Ht]; discriminate).
  intros H. exfalso. apply H. eauto.
Qed.

Lemma type_rejected m :
  m !! "type" ≫= z_enum_type = None ↔ ¬ type_is_credit_or_debit m.
Proof.
  unfold type_is_credit_or_debit. destruct (m !! "type") as [[]|]; cbn;
    try (split; [intros _ [H | H]; discriminate | done]).
  destruct (String.eqb_spec s "credit") as [-> | Hc].
  { split; [discriminate | intros H; exfalso; apply H; by left]. }
  destruct (String.eqb_spec s "debit") as [-> | Hd].
  { split; [discriminate | intros H; exfalso; apply H; by right]. }
  split; [| done]. intros _ [H | H]; congruence.
Qed.

Lemma schema_rejects_iff b :
  createTransactionBodySchema b = None ↔ body_fails_validation b.
Proof.
  destruct b as [[] |]; cbn; try done.
  rewrite <- title_rejected, <- amount_rejected, <- type_rejected.
  destruct (m !! "title" ≫= z_string), (m !! "amount" ≫= z_number),
    (m !! "type" ≫= z_enum_type); split; try done; try tauto;
    intros [H | [H | H]]; discriminate.
Qed.


Lemma times_minus_one (a : Q) : (a * (-1 # 1))%Q = (- a)%Q.
Proof.
  destruct a as [n d]. unfold Qmult, Qopp. cbn [Qnum Qden].
  f_equal; lia.
Qed.

Lemma stored_amount_sign_adjusted b :
  stored_amount b = sign_adjusted (body_type b) (body_amount b).
Proof.
  unfold stored_amount, sign_adjusted. destruct (body_type b); [done |].
  apply times_minus_one.
Qed.

(** ** Claims *)

Ltac absent_from_trace :=
  repeat (apply not_elem_of_cons; split; [discriminate |]);
  apply not_elem_of_nil.

Lemma create_never_guarded req w :
  (EvPreHandler ∉ trace (serve POST_root req w))
  ∧ (statusCode (reply (serve POST_root req w)) = 201%Z
     ∨ statusCode (reply (serve POST_root req w)) = 500%Z).
Proof.
  step. destruct (createTransactionBodySchema (body req)); step.
  - destruct (falsy (cookies_sessionId req)); step.
    + destruct (faults w (calls w)); cbn;
        (split; [absent_from_trace | tauto]).
    + destruct (cookies_sessionId req); step;
        [destruct (faults w (calls w)); cbn |];
        (split; [absent_from_trace | tauto]).
  - split; [absent_from_trace | tauto].
Qed.

(** C8. A list, get-one, summarize, update or delete request without the
    session cookie is halted by the guard with status 401: the trace holds
    no validator call and no store call, and the world is left as it was.
    The create route is registered without the guard: its trace never
    holds a guard step and its status is never 401. *)
Theorem session_guard_halts_before_handler
    (op : operation) (req : Request) (w : World) :
  cookies_sessionId req = None →
  (op ≠ POST_root →
   statusCode (reply (serve op req w)) = 401%Z
   ∧ no_validator_call (trace (serve op req w))
   ∧ no_store_call (trace (serve op req w))
   ∧ world (serve op req w) = w)
  ∧ preHandler (transactionsRoutes POST_root) = []
  ∧ (EvPreHandler ∉ trace (serve POST_root req w))
  ∧ statusCode (reply (serve POST_root req w)) ≠ 401%Z.
Proof.
  intros Hc. split; [| split; [reflexivity |]].
  - intros Hop. rewrite (serve_unauthenticated op req w Hop Hc). cbn.
    repeat split; repeat constructor.
  - destruct (create_never_guarded req w) as [Hg [Hs | Hs]];
      (split; [exact Hg | rewrite Hs; discriminate]).
Qed.

Lemma session_guard_halts_before_handler_witness :
  cookies_sessionId (mkRequest None uuid_b None) = None
  ∧ statusCode (reply (serve GET_id (mkRequest None uuid_b None) salary_world))
    = 401%Z.
Proof.
  split; [reflexivity |].
  apply (session_guard_halts_before_handler GET_id (mkRequest None uuid_b None)
           salary_world); [reflexivity | discriminate].
Defined.

(** C1, the claim as stated fails: a get-one with the id "not-a-uuid" and
    a session cookie is answered 500, which is no 400-class status. *)
Lemma invalid_id_is_not_a_client_error :
  validation_error GET_id (mkRequest (Some uuid_a) "not-a-uuid" None)
  ∧ ¬ client_error
        (statusCode
           (reply (serve GET_id (mkRequest (Some uuid_a) "not-a-uuid" None)
                     salary_world))).
Proof.
  split; [reflexivity |]. intros [_ H]. vm_compute in H. discriminate.
Qed.

(** C1, amended. A request that passes the guard and fails input
    validation is answered through the handler's catch-all: a create with
    a malformed body, and a get-one, update or delete whose path id is no
    canonical UUID, get the 500 reply of a server failure and make no
    store call; an update with a canonical id and a malformed body gets
    404 when the store answers and holds no row for id and session, and
    the same 500 reply otherwise. *)
Theorem validation_failure_reply
    (op : operation) (req : Request) (w : World) (s : string) :
  validation_error op req →
  (op ≠ POST_root → cookies_sessionId req = Some s) →
  (op = POST_root ∨ z_string_uuid (params_id req) = false →
   reply (serve op req w) = error_reply
   ∧ no_store_call (trace (serve op req w)))
  ∧ (op = PUT_id → z_string_uuid (params_id req) = true →
     reply (serve op req w) =
     if faults w (calls w) then error_reply
     else if head (filter (of_id_session (params_id req) s) (table w)) is Some _
          then error_reply
          else not_found_reply).
Proof.
  intros Hv Hg. split.
  - intros [-> | Hu].
    + apply schema_rejects_iff in Hv.
      rewrite (serve_create_invalid req w Hv). cbn.
      split; [reflexivity | repeat constructor].
    + destruct op; cbn in Hv; try contradiction.
      * rewrite (serve_invalid_id GET_id req w s); auto.
        cbn. split; [reflexivity | repeat constructor].
      * apply schema_rejects_iff in Hv.
        rewrite (serve_create_invalid req w Hv). cbn.
        split; [reflexivity | repeat constructor].
      * rewrite (serve_invalid_id PUT_id req w s); auto.
        cbn. split; [reflexivity | repeat constructor].
      * rewrite (serve_invalid_id DELETE_id req w s); auto.
        cbn. split; [reflexivity | repeat constructor].
  - intros -> Hu. cbn in Hv. destruct Hv as [Hv | Hv]; [congruence |].
    apply schema_rejects_iff in Hv.
    assert (Hc : cookies_sessionId req = Some s) by (apply Hg; discriminate).
    destruct (faults w (calls w)) eqn:Hf.
    { rewrite (serve_update_store_down req w s); auto. }
    destruct (head (filter (of_id_session (params_id req) s) (table w))) eqn:Hh.
    + rewrite (serve_update_invalid_body req w s t); auto.
    + rewrite (serve_update_not_found req w s); auto.
Qed.

Lemma validation_failure_reply_witness :
  validation_error GET_id (mkRequest (Some uuid_a) "not-a-uuid" None)
  ∧ reply (serve GET_id (mkRequest (Some uuid_a) "not-a-uuid" None) salary_world)
    = error_reply
  ∧ no_store_call
      (trace (serve GET_id (mkRequest (Some uuid_a) "not-a-uuid" None)
                salary_world)).
Proof.
  split; [reflexivity |].
  apply (validation_failure_reply GET_id
           (mkRequest (Some uuid_a) "not-a-uuid" None) salary_world uuid_a).
  - reflexivity.
  - intros _. reflexivity.
  - right. reflexivity.
Defined.

(** C10. A request that fails input validation leaves the transactions
    table exactly as it was: a create with a malformed body inserts no
    row, an update with a malformed body (or a malformed id) changes no
    row, and neither does a get-one or delete with a malformed id —
    whatever the cookie and whether or not the store answers. *)
Theorem validation_error_leaves_table
    (op : operation) (req : Request) (w : World) :
  validation_error op req →
  table (world (serve op req w)) = table w.
Proof.
  intros Hv.
  destruct (decide (op = POST_root)) as [-> | Hop].
  { apply schema_rejects_iff in Hv. by rewrite serve_create_invalid. }
  destruct (cookies_sessionId req) as [s |] eqn:Hc;
    [| by rewrite serve_unauthenticated].
  destruct (z_string_uuid (params_id req)) eqn:Hu.
  - destruct op; cbn in Hv; try contradiction; try congruence.
    destruct Hv as [Hv | Hv]; [congruence |].
    apply schema_rejects_iff in Hv.
    destruct (faults w (calls w)) eqn:Hf.
    { by rewrite (serve_update_store_down req w s). }
    destruct (head (filter (of_id_session (params_id req) s) (table w))) eqn:Hh.
    + by rewrite (serve_update_invalid_body req w s t).
    + by rewrite (serve_update_not_found req w s).
  - destruct op; cbn in Hv; try contradiction; try congruence;
      by rewrite (serve_invalid_id _ req w s); auto.
Qed.

Lemma validation_error_leaves_table_witness :
  validation_error PUT_id (mkRequest (Some uuid_a) uuid_b (Some loan))
  ∧ table (world (serve PUT_id (mkRequest (Some uuid_a) uuid_b (Some loan))
                    salary_world))
    = table salary_world.
Proof.
  assert (Hv : body_fails_validation (Some loan))
    by (apply schema_rejects_iff; reflexivity).
  split; [right; exact Hv |].
  apply (validation_error_leaves_table PUT_id
           (mkRequest (Some uuid_a) uuid_b (Some loan)) salary_world).
  right. exact Hv.
Defined.

(** ** The update handler *)

Lemma serve_update_write_down req w s t b :
  cookies_sessionId req = Some s →
  z_string_uuid (params_id req) = true →
  faults w (calls w) = false →
  faults w (S (calls w)) = true →
  head (filter (of_id_session (params_id req) s) (table w)) = Some t →
  createTransactionBodySchema (body req) = Some b →
  serve PUT_id req w =
  mkCtx (after_call (after_call w (table w)) (table w)) error_reply
        (existence_check (params_id req) s
         ++ [EvParse BodySchema;
             EvKnex (QUpdate (params_id req) s (body_title b) (stored_amount b));
             EvSend 500]).
Proof.
  intros Hc Hu Hf Hf2 Hh Hb. step. rewrite Hc, Hu. step. rewrite Hf, Hh. step.
  rewrite Hb. step. rewrite Hf2. reflexivity.
Qed.

Lemma head_filter_found (P : Transaction → Prop) `{∀ r, Decision (P r)}
    (t : list Transaction) :
  (∃ r, r ∈ t ∧ P r) → ∃ r, head (filter P t) = Some r ∧ r ∈ t ∧ P r.
Proof.
  intros (r & Hin & HP).
  assert (Hf : r ∈ filter P t) by (apply list_elem_of_filter; done).
  destruct (filter P t) as [| x l] eqn:E.
  - by apply elem_of_nil in Hf.
  - exists x. cbn. split; [done |].
    assert (Hx : x ∈ filter P t) by (rewrite E; left).
    apply list_elem_of_filter in Hx. tauto.
Qed.

Lemma head_filter_none (P : Transaction → Prop) `{∀ r, Decision (P r)}
    (t : list Transaction) :
  head (filter P t) = None ↔ ∀ r, r ∈ t → ¬ P r.
Proof.
  split.
  - intros Hh r Hin HP.
    destruct (head_filter_found P t) as (x & Hx & _); [eauto |]. congruence.
  - intros Hall. destruct (filter P t) as [| x l] eqn:E; [done |].
    assert (Hx : x ∈ filter P t) by (rewrite E; left).
    apply list_elem_of_filter in Hx as [HP Hin]. by destruct (Hall x Hin).
Qed.

Lemma updated_table_length tid s b t :
  length (updated_table tid s b t) = length t.
Proof. unfold updated_table. by rewrite length_fmap. Qed.

Lemma updated_table_keeps_match tid s b t r :
  r ∈ t → of_id_session tid s r →
  ∃ r', r' ∈ updated_table tid s b t ∧ of_id_session tid s r'
        ∧ title r' = body_title b ∧ amount r' = stored_amount b.
Proof.
  intros Hin HP.
  exists (set_title_amount (body_title b) (stored_amount b) r).
  split; [| by destruct HP].
  unfold updated_table. apply list_elem_of_fmap. exists r.
  split; [| done]. by rewrite decide_True.
Qed.

Lemma updated_table_match tid s b t r' :
  r' ∈ updated_table tid s b t → of_id_session tid s r' →
  title r' = body_title b ∧ amount r' = stored_amount b.
Proof.
  unfold updated_table. intros Hin HP.
  apply list_elem_of_fmap in Hin as (r & -> & Hin).
  destruct (decide (of_id_session tid s r)) as [Hr | Hr]; [done |].
  by destruct Hr.
Qed.

Lemma falsy_false v : falsy v = false → ∃ s, v = Some s ∧ s ≠ "".
Proof.
  destruct v as [s |]; cbn; [| discriminate]. intros H. exists s.
  split; [done |]. by apply String.eqb_neq.
Qed.

Lemma loan_fails_validation : body_fails_validation (Some loan).
Proof. apply schema_rejects_iff. reflexivity. Qed.

(** C7, the claim as stated fails: an update with a canonical id and a
    body whose type is "loan" still performs the existence-check read,
    and only then validates the body. *)
Lemma malformed_update_reads_store :
  body_fails_validation (body (mkRequest (Some uuid_a) uuid_b (Some loan)))
  ∧ trace (serve PUT_id (mkRequest (Some uuid_a) uuid_b (Some loan)) salary_world)
    = [EvPreHandler; EvParse ParamsSchema;
       EvKnex (QSelectFirst uuid_b uuid_a); EvParse BodySchema; EvSend 500]
  ∧ ¬ no_store_call
        (trace (serve PUT_id (mkRequest (Some uuid_a) uuid_b (Some loan))
                  salary_world)).
Proof.
  split; [exact loan_fails_validation |]. split; [reflexivity |].
  intros H. unfold no_store_call in H. vm_compute in H.
  do 2 (apply Forall_cons in H as [_ H]).
  apply Forall_cons in H as [H _]. discriminate.
Qed.

(** C7, amended. An update that passed the guard runs as the pipeline
    validate the path id, existence-check read, validate the body, update
    write.  A malformed id ends the request before any store call.  With a
    canonical id the existence-check read always runs; the body validator
    runs only after that read has found the row; a malformed body never
    leads to a further store call, so never to the update write, and the
    table is left as it was.  When all stages pass, the trace is exactly
    that pipeline. *)
Theorem update_pipeline (req : Request) (w : World) (s : string) :
  cookies_sessionId req = Some s →
  (z_string_uuid (params_id req) = false →
   trace (serve PUT_id req w) = [EvPreHandler; EvParse ParamsSchema; EvSend 500])
  ∧ (z_string_uuid (params_id req) = true →
     ∃ rest,
       trace (serve PUT_id req w) = existence_check (params_id req) s ++ rest
       ∧ (EvParse BodySchema ∈ rest →
          faults w (calls w) = false
          ∧ is_Some (head (filter (of_id_session (params_id req) s) (table w))))
       ∧ (body_fails_validation (body req) →
          no_store_call rest
          ∧ no_write (trace (serve PUT_id req w))
          ∧ table (world (serve PUT_id req w)) = table w))
  ∧ (∀ t b,
       z_string_uuid (params_id req) = true →
       healthy w →
       head (filter (of_id_session (params_id req) s) (table w)) = Some t →
       updateTransactionBodySchema (body req) = Some b →
       trace (serve PUT_id req w) =
       existence_check (params_id req) s
       ++ [EvParse BodySchema;
           EvKnex (QUpdate (params_id req) s (body_title b) (stored_amount b));
           EvSend 200]).
Proof.
  intros Hc. split; [| split].
  - intros Hu. by rewrite (serve_invalid_id PUT_id req w s); auto.
  - intros Hu.
    destruct (faults w (calls w)) eqn:Hf.
    { rewrite (serve_update_store_down req w s); auto. cbn [trace world table].
      eexists. split; [reflexivity |]. split.
      - intros H. apply list_elem_of_singleton in H. discriminate.
      - intros _. repeat split; repeat constructor. }
    destruct (head (filter (of_id_session (params_id req) s) (table w)))
      as [t |] eqn:Hh.
    2:{ rewrite (serve_update_not_found req w s); auto. cbn [trace world table].
        eexists. split; [reflexivity |]. split.
        - intros H. apply list_elem_of_singleton in H. discriminate.
        - intros _. repeat split; repeat constructor. }
    destruct (createTransactionBodySchema (body req)) as [b |] eqn:Hb.
    2:{ rewrite (serve_update_invalid_body req w s t); auto.
        cbn [trace world table]. eexists. split; [reflexivity |]. split.
        - intros _. split; [reflexivity | by eexists].
        - intros _. repeat split; repeat constructor. }
    assert (Hok : ¬ body_fails_validation (body req)).
    { rewrite <- schema_rejects_iff. congruence. }
    destruct (faults w (S (calls w))) eqn:Hf2.
    + rewrite (serve_update_write_down req w s t b); auto.
      cbn [trace world table]. eexists. split; [reflexivity |]. split.
      * intros _. split; [reflexivity | by eexists].
      * intros Hbad. by destruct Hok.
    + rewrite (serve_update_ok req w s t b); auto.
      cbn [trace world table]. eexists. split; [reflexivity |]. split.
      * intros _. split; [reflexivity | by eexists].
      * intros Hbad. by destruct Hok.
  - intros t b Hu Hw Hh Hb.
    by rewrite (serve_update_ok req w s t b); auto.
Qed.

Lemma update_pipeline_witness :
  cookies_sessionId (mkRequest (Some uuid_a) uuid_b (Some rent)) = Some uuid_a
  ∧ trace (serve PUT_id (mkRequest (Some uuid_a) uuid_b (Some rent)) salary_world)
    = existence_check uuid_b uuid_a
      ++ [EvParse BodySchema;
          EvKnex (QUpdate uuid_b uuid_a "Rent" (stored_amount (mkBody "Rent" (1200 # 1) debit)));
          EvSend 200].
Proof.
  split; [reflexivity |].
  destruct (update_pipeline (mkRequest (Some uuid_a) uuid_b (Some rent))
              salary_world uuid_a eq_refl) as (_ & _ & H).
  apply (H salary_row (mkBody "Rent" (1200 # 1) debit)).
  - reflexivity.
  - intros n. reflexivity.
  - reflexivity.
  - reflexivity.
Defined.

Lemma serve_create_table req w b :
  createTransactionBodySchema (body req) = Some b →
  faults w (calls w) = false →
  ∃ new_id session,
    table (world (serve POST_root req w))
    = table w ++ [created_row new_id session b].
Proof.
  intros Hb Hf. destruct (falsy (cookies_sessionId req)) eqn:Hc.
  - rewrite (serve_create_minted req w b); auto. by do 2 eexists.
  - apply falsy_false in Hc as (s & Hc & Hs).
    rewrite (serve_create_reused req w b s); auto. by do 2 eexists.
Qed.

(** C2. For a valid create request the appended row, and for a valid
    update request every row of the targeted id and session, stores the
    request's amount when the type is credit and its negation when the
    type is debit (together with the request's title); the update keeps
    the targeted row in place. *)
Theorem stored_amount_follows_type
    (req : Request) (w : World) (b : TransactionBody) :
  healthy w →
  (createTransactionBodySchema (body req) = Some b →
   ∃ row,
     table (world (serve POST_root req w)) = table w ++ [row]
     ∧ title row = body_title b
     ∧ amount row = sign_adjusted (body_type b) (body_amount b))
  ∧ (∀ s,
       cookies_sessionId req = Some s →
       z_string_uuid (params_id req) = true →
       updateTransactionBodySchema (body req) = Some b →
       (∃ r, r ∈ table w ∧ of_id_session (params_id req) s r) →
       length (table (world (serve PUT_id req w))) = length (table w)
       ∧ (∃ r, r ∈ table (world (serve PUT_id req w))
               ∧ of_id_session (params_id req) s r)
       ∧ ∀ r, r ∈ table (world (serve PUT_id req w)) →
              of_id_session (params_id req) s r →
              title r = body_title b
              ∧ amount r = sign_adjusted (body_type b) (body_amount b)).
Proof.
  intros Hw. split.
  - intros Hb.
    destruct (serve_create_table req w b Hb (Hw _)) as (new_id & session & ->).
    eexists. split; [reflexivity |]. cbn. split; [done |].
    apply stored_amount_sign_adjusted.
  - intros s Hc Hu Hb Hex.
    destruct (head_filter_found _ _ Hex) as (t & Hh & _).
    rewrite (serve_update_ok req w s t b); auto. cbn [world table after_call].
    rewrite <- stored_amount_sign_adjusted.
    split; [apply updated_table_length |]. split.
    + destruct Hex as (r & Hin & HP).
      destruct (updated_table_keeps_match (params_id req) s b _ r Hin HP)
        as (r' & ? & ? & _).
      eauto.
    + apply updated_table_match.
Qed.

Lemma stored_amount_follows_type_witness :
  healthy empty_world
  ∧ createTransactionBodySchema (body (mkRequest None "" (Some rent)))
    = Some (mkBody "Rent" (1200 # 1) debit)
  ∧ ∃ row,
      table (world (serve POST_root (mkRequest None "" (Some rent)) empty_world))
      = table empty_world ++ [row]
      ∧ title row = "Rent"
      ∧ amount row = sign_adjusted debit (1200 # 1).
Proof.
  split; [intros n; reflexivity |]. split; [reflexivity |].
  apply (stored_amount_follows_type (mkRequest None "" (Some rent)) empty_world
           (mkBody "Rent" (1200 # 1) debit)).
  - intros n. reflexivity.
  - reflexivity.
Defined.

Lemma update_example_negates_debit :
  table (world (serve PUT_id (mkRequest (Some uuid_a) uuid_b (Some rent))
                  salary_world))
  = [mkTransaction uuid_b "Rent" (-1200 # 1) uuid_a].
Proof. reflexivity. Qed.

(** ** Reading back what was written *)

Lemma filter_none (P : Transaction → Prop) `{∀ r, Decision (P r)}
    (t : list Transaction) :
  (∀ r, r ∈ t → ¬ P r) → filter P t = [].
Proof.
  intros Hall. apply (head_filter_none P) in Hall.
  by destruct (filter P t).
Qed.

Lemma unique_id_same_row (t : list Transaction) (x y : Transaction) :
  NoDup (id <$> t) → x ∈ t → y ∈ t → id x = id y → x = y.
Proof.
  induction t as [| a t IH]; intros Hnd Hx Hy Hid.
  - by apply elem_of_nil in Hx.
  - rewrite fmap_cons in Hnd. apply NoDup_cons in Hnd as [Ha Hnd].
    apply elem_of_cons in Hx as [-> | Hx];
      apply elem_of_cons in Hy as [-> | Hy]; auto.
    + destruct Ha. rewrite Hid. apply list_elem_of_fmap. eauto.
    + destruct Ha. rewrite <- Hid. apply list_elem_of_fmap. eauto.
Qed.

(** C3, the claim as stated fails: the reply to a create carries a message
    and no id, so there is no returned id to fetch by. *)
Lemma create_reply_carries_no_id :
  payload (reply (serve POST_root (mkRequest None "" (Some salary)) empty_world))
  = Some (PMessage "Transaction created successfully")
  ∧ ¬ ∃ tid t,
        returned_id
          (reply (serve POST_root (mkRequest None "" (Some salary)) empty_world))
        = Some tid
        ∧ payload
            (reply
               (serve GET_id (mkRequest (Some uuid_a) tid None)
                  (world
                     (serve POST_root (mkRequest None "" (Some salary))
                        empty_world))))
          = Some (PTransaction t).
Proof.
  split; [reflexivity |]. intros (tid & t & H & _).
  vm_compute in H. discriminate.
Qed.

(** C3, amended. A valid create without a session cookie answers 201 with
    a message that carries no id, and issues the session cookie; fetching
    the id the handler generated for the new row, with that cookie,
    returns a record whose title is the input title and whose amount is
    the sign-adjusted input amount — provided the generated id is a
    canonical UUID not yet used under that session. *)
Theorem create_then_get_round_trip
    (req get : Request) (w : World) (b : TransactionBody) :
  healthy w →
  cookies_sessionId req = None →
  createTransactionBodySchema (body req) = Some b →
  z_string_uuid (uuids w (S (drawn w))) = true →
  (∀ r, r ∈ table w →
        ¬ of_id_session (uuids w (S (drawn w))) (uuids w (drawn w)) r) →
  cookies_sessionId get = Some (uuids w (drawn w)) →
  params_id get = uuids w (S (drawn w)) →
  statusCode (reply (serve POST_root req w)) = 201%Z
  ∧ returned_id (reply (serve POST_root req w)) = None
  ∧ cookie_value <$> setCookies (reply (serve POST_root req w))
    = [uuids w (drawn w)]
  ∧ ∃ t,
      reply (serve GET_id get (world (serve POST_root req w)))
      = mkReply 200 (Some (PTransaction t)) []
      ∧ id t = params_id get
      ∧ title t = body_title b
      ∧ amount t = sign_adjusted (body_type b) (body_amount b).
Proof.
  intros Hw Hc Hb Hu Hfresh Hgc Hgp.
  rewrite (serve_create_minted req w b) by (rewrite ?Hc; auto).
  cbn [reply world statusCode setCookies]. repeat split.
  rewrite (serve_get_one get _ (uuids w (drawn w))); [| done | by rewrite Hgp | apply Hw].
  cbn [table reply]. rewrite Hgp, filter_app, (filter_none _ _ Hfresh).
  rewrite filter_cons_True by done. cbn.
  eexists. split; [reflexivity |]. cbn.
  repeat split. apply stored_amount_sign_adjusted.
Qed.

Lemma create_then_get_round_trip_witness :
  healthy empty_world
  ∧ ∃ t,
      reply
        (serve GET_id (mkRequest (Some uuid_a) uuid_b None)
           (world (serve POST_root (mkRequest None "" (Some rent)) empty_world)))
      = mkReply 200 (Some (PTransaction t)) []
      ∧ id t = uuid_b
      ∧ title t = "Rent"
      ∧ amount t = sign_adjusted debit (1200 # 1).
Proof.
  split; [intros n; reflexivity |].
  apply (create_then_get_round_trip (mkRequest None "" (Some rent))
           (mkRequest (Some uuid_a) uuid_b None) empty_world
           (mkBody "Rent" (1200 # 1) debit)).
  - intros n. reflexivity.
  - reflexivity.
  - reflexivity.
  - reflexivity.
  - intros r Hr. cbn in Hr. by apply elem_of_nil in Hr.
  - reflexivity.
  - reflexivity.
Defined.

(** ** Session scoping *)

Lemma filter_other_session (B : string) (l1 l2 : list Transaction)
    (r : Transaction) :
  session_id r ≠ B →
  filter (of_session B) (l1 ++ r :: l2) = filter (of_session B) (l1 ++ l2).
Proof.
  intros Hne. rewrite !filter_app. by rewrite filter_cons_False.
Qed.

Lemma head_elem_of (l : list Transaction) (x : Transaction) :
  head l = Some x → x ∈ l.
Proof. destruct l; [discriminate |]. intros [= ->]. left. Qed.

(** C4. Let a transaction of session A sit in the table and let a request
    present the cookie of another session B.  Then a list reply holds only
    rows of session B and not that transaction; a get-one reply never
    carries a row of another session; the list and summary replies are the
    ones the same request gets when the transaction is not in the table at
    all; and, ids being unique and canonical and the store answering,
    get-one for the transaction's id answers 404. *)
Theorem session_isolation
    (w : World) (l1 l2 : list Transaction) (r : Transaction)
    (B : string) (req : Request) :
  table w = l1 ++ r :: l2 →
  session_id r ≠ B →
  cookies_sessionId req = Some B →
  let without := mkWorld (l1 ++ l2) (faults w) (calls w) (uuids w) (drawn w) in
  (∀ l, payload (reply (serve GET_root req w)) = Some (PTransactions l) →
        (r ∉ l) ∧ ∀ x, x ∈ l → session_id x = B)
  ∧ (∀ t, payload (reply (serve GET_id req w)) = Some (PTransaction t) →
          session_id t = B)
  ∧ reply (serve GET_root req w) = reply (serve GET_root req without)
  ∧ reply (serve GET_summary req w) = reply (serve GET_summary req without)
  ∧ (params_id req = id r →
     NoDup (id <$> table w) →
     z_string_uuid (id r) = true →
     faults w (calls w) = false →
     reply (serve GET_id req w) = not_found_reply).
Proof.
  intros Ht Hne Hc without.
  assert (Hlist : ∀ l, l = filter (of_session B) (table w) →
                       (r ∉ l) ∧ ∀ x, x ∈ l → session_id x = B).
  { intros l ->. split.
    - intros Hin. apply list_elem_of_filter in Hin as [Hs _]. by destruct Hne.
    - intros x Hin. by apply list_elem_of_filter in Hin as [Hs _]. }
  split; [| split; [| split; [| split]]].
  - destruct (faults w (calls w)) eqn:Hf.
    + destruct (serve_read_store_down GET_root req w B) as [-> _];
        [tauto | done | discriminate | done |].
      discriminate.
    + rewrite (serve_list req w B) by done. cbn. intros l [= <-]. by apply Hlist.
  - destruct (z_string_uuid (params_id req)) eqn:Hu.
    2:{ rewrite (serve_invalid_id GET_id req w B) by auto. discriminate. }
    destruct (faults w (calls w)) eqn:Hf.
    + destruct (serve_read_store_down GET_id req w B) as [-> _];
        [tauto | done | done | done |].
      discriminate.
    + rewrite (serve_get_one req w B) by done. cbn [reply].
      destruct (head _) as [t' |] eqn:Hh; [| discriminate].
      intros t [= <-]. apply head_elem_of, list_elem_of_filter in Hh.
      by destruct Hh as [[_ Hs] _].
  - destruct (faults w (calls w)) eqn:Hf.
    + destruct (serve_read_store_down GET_root req w B) as [-> _];
        [tauto | done | discriminate | done |].
      by destruct (serve_read_store_down GET_root req without B) as [-> _];
        [tauto | done | discriminate | done |].
    + rewrite (serve_list req w B), (serve_list req without B) by done.
      cbn [reply table without]. by rewrite Ht, filter_other_session.
  - destruct (faults w (calls w)) eqn:Hf.
    + destruct (serve_read_store_down GET_summary req w B) as [-> _];
        [tauto | done | discriminate | done |].
      by destruct (serve_read_store_down GET_summary req without B) as [-> _];
        [tauto | done | discriminate | done |].
    + rewrite (serve_summary req w B), (serve_summary req without B) by done.
      cbn [reply table without]. by rewrite Ht, filter_other_session.
  - intros Hp Hnd Hu Hf.
    rewrite (serve_get_one req w B) by (rewrite ?Hp; done).
    cbn [reply]. rewrite Hp.
    assert (Hnone : head (filter (of_id_session (id r) B) (table w)) = None).
    { apply head_filter_none. intros x Hx [Hid Hs].
      assert (x = r) as ->.
      { apply (unique_id_same_row (table w)); auto.
        rewrite Ht. apply elem_of_app. right. left. }
      by destruct Hne. }
    by rewrite Hnone.
Qed.

Lemma session_isolation_witness :
  table salary_world = [] ++ salary_row :: []
  ∧ session_id salary_row ≠ uuid_c
  ∧ reply (serve GET_id (mkRequest (Some uuid_c) uuid_b None) salary_world)
    = not_found_reply.
Proof.
  split; [reflexivity |]. split; [discriminate |].
  apply (session_isolation salary_world [] [] salary_row uuid_c
           (mkRequest (Some uuid_c) uuid_b None)).
  - reflexivity.
  - discriminate.
  - reflexivity.
  - reflexivity.
  - cbn. apply NoDup_singleton.
  - reflexivity.
  - reflexivity.
Defined.

(** ** The summary *)

Lemma sum_amounts_app (l1 l2 : list Transaction) :
  (sum_amounts (l1 ++ l2) == sum_amounts l1 + sum_amounts l2)%Q.
Proof.
  induction l1 as [| r l1 IH]; cbn.
  - by rewrite Qplus_0_l.
  - fold (sum_amounts (l1 ++ l2)). fold (sum_amounts l1).
    rewrite IH. apply Qplus_assoc.
Qed.

(** C5. With the session cookie [s] and the store answering, the summary
    reply is 200 with the aggregate over the rows stored under [s]: the
    sum of their stored (sign-adjusted) amounts when there is at least one
    row, and [null] when there is none, which the null-as-zero
    normalisation turns into 0; in both cases the normalised amount is the
    sum over those rows.  Each valid create under [s] adds the
    sign-adjusted amount of its body to that sum. *)
Theorem summary_is_sum_of_session
    (req : Request) (w : World) (s : string) :
  cookies_sessionId req = Some s →
  faults w (calls w) = false →
  (∃ a,
     reply (serve GET_summary req w) = mkReply 200 (Some (PSummary a)) []
     ∧ null_as_zero a = sum_amounts (filter (of_session s) (table w))
     ∧ (filter (of_session s) (table w) = [] →
        a = None ∧ null_as_zero a = 0%Q)
     ∧ (filter (of_session s) (table w) ≠ [] →
        a = Some (sum_amounts (filter (of_session s) (table w)))))
  ∧ (∀ create b,
       cookies_sessionId create = Some s →
       s ≠ "" →
       createTransactionBodySchema (body create) = Some b →
       (sum_amounts
          (filter (of_session s) (table (world (serve POST_root create w))))
        == sum_amounts (filter (of_session s) (table w))
           + sign_adjusted (body_type b) (body_amount b))%Q).
Proof.
  intros Hc Hf. split.
  - rewrite (serve_summary req w s) by done. cbn [reply].
    eexists. split; [reflexivity |].
    destruct (filter (of_session s) (table w)) as [| r l] eqn:E; cbn.
    + repeat split; done.
    + repeat split; done.
  - intros create b Hcc Hs Hb.
    rewrite (serve_create_reused create w b s) by done. cbn [world table].
    rewrite filter_app, filter_cons_True by done.
    rewrite filter_nil, sum_amounts_app. cbn.
    rewrite stored_amount_sign_adjusted. by rewrite Qplus_0_r.
Qed.

Lemma summary_is_sum_of_session_witness :
  cookies_sessionId (mkRequest (Some uuid_a) "" None) = Some uuid_a
  ∧ ∃ a,
      reply (serve GET_summary (mkRequest (Some uuid_a) "" None) salary_world)
      = mkReply 200 (Some (PSummary a)) []
      ∧ null_as_zero a
        = sum_amounts (filter (of_session uuid_a) (table salary_world)).
Proof.
  split; [reflexivity |].
  destruct (summary_is_sum_of_session (mkRequest (Some uuid_a) "" None)
              salary_world uuid_a eq_refl eq_refl) as [(a & H1 & H2 & _) _].
  exists a. split; assumption.
Defined.

(** The worked example of the specification: a credit of 5000 without a
    cookie, a debit of 1200 with the issued cookie, then the summary. *)
Example salary_then_rent_summary :
  let w1 := world (serve POST_root (mkRequest None "" (Some salary)) empty_world) in
  let w2 := world (serve POST_root (mkRequest (Some uuid_a) "" (Some rent)) w1) in
  amount <$> table w2 = [5000 # 1; -1200 # 1]%Q
  ∧ payload (reply (serve GET_summary (mkRequest (Some uuid_a) "" None) w2))
    = Some (PSummary (Some (3800 # 1))).
Proof. split; reflexivity. Qed.

(** A session without rows gets [null]. *)
Example empty_session_summary :
  payload (reply (serve GET_summary (mkRequest (Some uuid_c) "" None) salary_world))
  = Some (PSummary None).
Proof. reflexivity. Qed.

(** ** Session bootstrap on create *)

(** C6, evaluated at a valid create that arrives without a cookie: the
    reply is 201 and sets [sessionId] with path [/], but the max-age it
    passes is 604800000, a thousand times the 604800 seconds of seven
    days. *)
Theorem create_cookie_max_age :
  statusCode
    (reply (serve POST_root (mkRequest None "" (Some salary)) empty_world))
  = 201%Z
  ∧ setCookies
      (reply (serve POST_root (mkRequest None "" (Some salary)) empty_world))
    = [mkCookie "sessionId" uuid_a "/" 604800000]
  ∧ cookie_maxAge
    <$> setCookies
          (reply (serve POST_root (mkRequest None "" (Some salary)) empty_world))
    = [(1000 * (7 * 24 * 60 * 60))%Z]
  ∧ cookie_maxAge
    <$> setCookies
          (reply (serve POST_root (mkRequest None "" (Some salary)) empty_world))
    ≠ [604800%Z].
Proof. repeat split. discriminate. Qed.

(** C9, the claim as stated fails: a create that presents the session
    cookie with an empty value does not reuse it; it mints an identifier,
    sets a new cookie and stores the row under the minted identifier, and
    a second create with the same cookie mints another one. *)
Lemma empty_cookie_is_not_reused :
  cookies_sessionId (mkRequest (Some "") "" (Some salary)) = Some ""
  ∧ setCookies
      (reply (serve POST_root (mkRequest (Some "") "" (Some salary)) empty_world))
    = [session_cookie uuid_a]
  ∧ session_id
    <$> table
          (world
             (serve POST_root (mkRequest (Some "") "" (Some salary))
                (world
                   (serve POST_root (mkRequest (Some "") "" (Some salary))
                      empty_world))))
    = [uuid_a; uuid_c].
Proof. repeat split. Qed.

(** C9, amended. On a valid create, if no session cookie is present (or
    only one with an empty value) a new identifier is minted, returned as
    the [sessionId] response cookie, and stored as the inserted row's
    session_id; if a non-empty session cookie is present it is reused as
    it is and no cookie is set, so two creates presenting the same
    non-empty cookie append two rows with that same session_id. *)
Theorem session_bootstrap (req : Request) (w : World) (b : TransactionBody) :
  healthy w →
  createTransactionBodySchema (body req) = Some b →
  (falsy (cookies_sessionId req) = true →
   ∃ k row,
     setCookies (reply (serve POST_root req w)) = [k]
     ∧ cookie_name k = "sessionId"
     ∧ cookie_value k = uuids w (drawn w)
     ∧ table (world (serve POST_root req w)) = table w ++ [row]
     ∧ session_id row = uuids w (drawn w))
  ∧ (∀ s,
       cookies_sessionId req = Some s →
       s ≠ "" →
       setCookies (reply (serve POST_root req w)) = []
       ∧ ∃ row,
           table (world (serve POST_root req w)) = table w ++ [row]
           ∧ session_id row = s
           ∧ ∀ req2 b2,
               cookies_sessionId req2 = Some s →
               createTransactionBodySchema (body req2) = Some b2 →
               setCookies
                 (reply (serve POST_root req2 (world (serve POST_root req w))))
               = []
               ∧ ∃ row2,
                   table (world (serve POST_root req2
                                   (world (serve POST_root req w))))
                   = table w ++ [row; row2]
                   ∧ session_id row2 = s).
Proof.
  intros Hw Hb. split.
  - intros Hc. rewrite (serve_create_minted req w b) by auto.
    cbn [reply world setCookies table]. do 2 eexists.
    repeat split; reflexivity.
  - intros s Hc Hs. rewrite (serve_create_reused req w b s) by auto.
    cbn [reply world setCookies table]. split; [reflexivity |].
    eexists. split; [reflexivity |]. split; [reflexivity |].
    intros req2 b2 Hc2 Hb2.
    rewrite (serve_create_reused req2 _ b2 s) by (auto; apply Hw).
    cbn [reply world setCookies table]. split; [reflexivity |].
    eexists. rewrite <- app_assoc. split; reflexivity.
Qed.

Lemma session_bootstrap_witness :
  healthy empty_world
  ∧ setCookies
      (reply (serve POST_root (mkRequest (Some uuid_d) "" (Some rent)) empty_world))
    = [].
Proof.
  split; [intros n; reflexivity |].
  destruct (session_bootstrap (mkRequest (Some uuid_d) "" (Some rent))
              empty_world (mkBody "Rent" (1200 # 1) debit)
              (λ n, eq_refl) eq_refl) as [_ H].
  destruct (H uuid_d eq_refl) as [H1 _]; [discriminate |].
  exact H1.
Defined.

(** ** What a request can do to the table *)

Ltac exec :=
  repeat (step;
          match goal with
          | |- context [match ?x with _ => _ end] =>
              lazymatch x with
              | context [match _ with _ => _ end] => fail
              | body_type _ => fail
              | _ => destruct x eqn:?
              end
          end);
  step.

Lemma serve_table_cases op req w :
  table (world (serve op req w)) = table w
  ∨ (∃ b s n,
       op = POST_root ∧ (n = drawn w ∨ n = S (drawn w))
       ∧ table (world (serve op req w))
         = table w ++ [created_row (uuids w n) s b])
  ∨ (∃ b s,
       op = PUT_id
       ∧ table (world (serve op req w))
         = updated_table (params_id req) s b (table w))
  ∨ (∃ s,
       op = DELETE_id
       ∧ table (world (serve op req w))
         = filter (λ r, ¬ of_id_session (params_id req) s r) (table w)).
Proof.
  destruct op; exec; try (left; reflexivity).
  - right; left. do 3 eexists. split; [done |]. split; [by right | done].
  - right; left. do 3 eexists. split; [done |]. split; [by left | done].
  - right; right; left. do 2 eexists. split; done.
  - right; right; right. eexists. split; done.
Qed.

Lemma updated_table_ids tid s b t : id <$> updated_table tid s b t = id <$> t.
Proof.
  unfold updated_table. rewrite <- list_fmap_compose. apply list_fmap_ext.
  intros i r _. cbn. by destruct (decide (of_id_session tid s r)).
Qed.

(** Ids stay unique as long as the ids [randomUUID] hands to a create are
    not in the table yet. *)
Lemma serve_preserves_unique_ids op req w :
  NoDup (id <$> table w) →
  (op = POST_root → ∀ n, n = drawn w ∨ n = S (drawn w) →
                       uuids w n ∉ id <$> table w) →
  NoDup (id <$> table (world (serve op req w))).
Proof.
  intros Hnd Hfresh.
  destruct (serve_table_cases op req w)
    as [-> | [(b & s & n & Hop & Hn & ->) | [(b & s & _ & ->) | (s & _ & ->)]]].
  - done.
  - rewrite fmap_app. apply NoDup_app. split; [done |]. split.
    + intros x Hx Hin. cbn in Hin. apply list_elem_of_singleton in Hin as ->.
      by apply (Hfresh Hop n Hn).
    + cbn. apply NoDup_singleton.
  - by rewrite updated_table_ids.
  - eapply sublist_NoDup; [exact Hnd |].
    apply fmap_sublist, sublist_filter.
Qed.

(** * Further properties of the handlers *)

(** ** The delete handler, step by step *)

Lemma serve_delete_store_down req w s :
  cookies_sessionId req = Some s →
  z_string_uuid (params_id req) = true →
  faults w (calls w) = true →
  serve DELETE_id req w =
  mkCtx (after_call w (table w)) error_reply
        (existence_check (params_id req) s ++ [EvSend 500]).
Proof. intros Hc Hu Hf. step. rewrite Hc, Hu. step. rewrite Hf. reflexivity. Qed.

Lemma serve_delete_not_found req w s :
  cookies_sessionId req = Some s →
  z_string_uuid (params_id req) = true →
  faults w (calls w) = false →
  head (filter (of_id_session (params_id req) s) (table w)) = None →
  serve DELETE_id req w =
  mkCtx (after_call w (table w)) not_found_reply
        (existence_check (params_id req) s ++ [EvSend 404]).
Proof.
  intros Hc Hu Hf Hh. step. rewrite Hc, Hu. step. rewrite Hf, Hh. reflexivity.
Qed.

Lemma serve_delete_write_down req w s t :
  cookies_sessionId req = Some s →
  z_string_uuid (params_id req) = true →
  faults w (calls w) = false →
  faults w (S (calls w)) = true →
  head (filter (of_id_session (params_id req) s) (table w)) = Some t →
  serve DELETE_id req w =
  mkCtx (after_call (after_call w (table w)) (table w)) error_reply
        (existence_check (params_id req) s
         ++ [EvKnex (QDelete (params_id req) s); EvSend 500]).
Proof.
  intros Hc Hu Hf Hf2 Hh. step. rewrite Hc, Hu. step. rewrite Hf, Hh. step.
  rewrite Hf2. reflexivity.
Qed.

Lemma serve_delete_ok req w s t :
  cookies_sessionId req = Some s →
  z_string_uuid (params_id req) = true →
  faults w (calls w) = false →
  faults w (S (calls w)) = false →
  head (filter (of_id_session (params_id req) s) (table w)) = Some t →
  serve DELETE_id req w =
  mkCtx (after_call (after_call w (table w))
           (deleted_table (params_id req) s (table w)))
        (mkReply 200 (Some (PMessage "Transaction deleted successfully")) [])
        (existence_check (params_id req) s
         ++ [EvKnex (QDelete (params_id req) s); EvSend 200]).
Proof.
  intros Hc Hu Hf Hf2 Hh. step. rewrite Hc, Hu. step. rewrite Hf, Hh. step.
  rewrite Hf2. reflexivity.
Qed.

Lemma serve_create_store_down_minted req w b :
  createTransactionBodySchema (body req) = Some b →
  falsy (cookies_sessionId req) = true →
  faults w (calls w) = true →
  let s := uuids w (drawn w) in
  let row := created_row (uuids w (S (drawn w))) s b in
  serve POST_root req w =
  mkCtx (mkWorld (table w) (faults w) (S (calls w)) (uuids w) (S (S (drawn w))))
        (mkReply 500 (Some (PError "Internal Server Error")) [session_cookie s])
        [EvParse BodySchema; EvRandomUUID s; EvSetCookie (session_cookie s);
         EvRandomUUID (uuids w (S (drawn w))); EvKnex (QInsert row); EvSend 500].
Proof.
  intros Hb Hc Hf. step. rewrite Hb. step. rewrite Hc. step. rewrite Hf.
  reflexivity.
Qed.

Lemma serve_create_store_down_reused req w b s :
  createTransactionBodySchema (body req) = Some b →
  cookies_sessionId req = Some s →
  s ≠ "" →
  faults w (calls w) = true →
  let row := created_row (uuids w (drawn w)) s b in
  serve POST_root req w =
  mkCtx (mkWorld (table w) (faults w) (S (calls w)) (uuids w) (S (drawn w)))
        error_reply
        [EvParse BodySchema; EvRandomUUID (uuids w (drawn w));
         EvKnex (QInsert row); EvSend 500].
Proof.
  intros Hb Hc Hs Hf. step. rewrite Hb. step. rewrite Hc.
  rewrite (falsy_present s Hs). step. rewrite Hf. reflexivity.
Qed.

Lemma deleted_table_no_match tid s t :
  head (filter (of_id_session tid s) (deleted_table tid s t)) = None.
Proof.
  apply head_filter_none. intros r Hin HP.
  apply list_elem_of_filter in Hin as [Hn _]. by destruct Hn.
Qed.

Lemma filter_all (P : Transaction → Prop) `{∀ r, Decision (P r)}
    (t : list Transaction) :
  (∀ r, r ∈ t → P r) → filter P t = t.
Proof.
  induction t as [| a t IH]; intros Hall; [done |].
  rewrite filter_cons_True by (apply Hall; left).
  f_equal. apply IH. intros r Hr. apply Hall. by right.
Qed.

Lemma no_match_of_other_session (t : list Transaction) (r : Transaction)
    (B : string) :
  NoDup (id <$> t) → r ∈ t → session_id r ≠ B →
  head (filter (of_id_session (id r) B) t) = None.
Proof.
  intros Hnd Hin Hne. apply head_filter_none. intros x Hx [Hid Hs].
  assert (x = r) as -> by (by apply (unique_id_same_row t)).
  by destruct Hne.
Qed.

(** ** Deleting *)

(** X1. Delete is terminal.  When the store answers and the session owns a
    row of the requested id, the delete answers 200; after it, a get-one
    for the same id and session answers 404, and so does a second delete
    (404, not 500), which leaves the table as the first delete left it. *)
Theorem delete_is_terminal (req : Request) (w : World) (s : string) :
  healthy w →
  cookies_sessionId req = Some s →
  z_string_uuid (params_id req) = true →
  (∃ r, r ∈ table w ∧ of_id_session (params_id req) s r) →
  reply (serve DELETE_id req w)
  = mkReply 200 (Some (PMessage "Transaction deleted successfully")) []
  ∧ reply (serve GET_id req (world (serve DELETE_id req w))) = not_found_reply
  ∧ reply (serve DELETE_id req (world (serve DELETE_id req w)))
    = not_found_reply
  ∧ table (world (serve DELETE_id req (world (serve DELETE_id req w))))
    = table (world (serve DELETE_id req w)).
Proof.
  intros Hw Hc Hu Hex.
  destruct (head_filter_found _ _ Hex) as (t & Hh & _).
  rewrite (serve_delete_ok req w s t) by auto. cbn [reply world].
  split; [reflexivity |].
  rewrite serve_get_one with (s := s) by (auto; apply Hw).
  rewrite serve_delete_not_found with (s := s);
    [| done | done | apply Hw | apply deleted_table_no_match].
  cbn [reply world table after_call].
  by rewrite deleted_table_no_match.
Qed.

Lemma delete_is_terminal_witness :
  healthy salary_world
  ∧ reply
      (serve DELETE_id (mkRequest (Some uuid_a) uuid_b None)
         (world (serve DELETE_id (mkRequest (Some uuid_a) uuid_b None)
                   salary_world)))
    = not_found_reply.
Proof.
  split; [intros n; reflexivity |].
  apply (delete_is_terminal (mkRequest (Some uuid_a) uuid_b None)
           salary_world uuid_a).
  - intros n. reflexivity.
  - reflexivity.
  - reflexivity.
  - exists salary_row. split; [left | split; reflexivity].
Defined.

Lemma one_match_of_unique_id (t : list Transaction) (tid s : string) :
  NoDup (id <$> t) →
  (∃ r, r ∈ t ∧ of_id_session tid s r) →
  length (filter (of_id_session tid s) t) = 1.
Proof.
  induction t as [| a t IH]; intros Hnd (r & Hin & HP).
  - by apply elem_of_nil in Hin.
  - rewrite fmap_cons in Hnd. apply NoDup_cons in Hnd as [Ha Hnd].
    destruct (decide (of_id_session tid s a)) as [Hm | Hm].
    + rewrite filter_cons_True by done. cbn. f_equal.
      rewrite (filter_none (of_id_session tid s) t); [done |].
      intros x Hx [Hid _]. destruct Ha. destruct Hm as [<- _].
      rewrite <- Hid. apply list_elem_of_fmap. eauto.
    + rewrite filter_cons_False by done. apply IH; [done |].
      apply elem_of_cons in Hin as [-> | Hin]; [done | eauto].
Qed.

Lemma filter_split_length (P : Transaction → Prop) `{∀ r, Decision (P r)}
    (t : list Transaction) :
  length (filter P t) + length (filter (λ r, ¬ P r) t) = length t.
Proof.
  induction t as [| a t IH]; [done |].
  destruct (decide (P a)) as [Ha | Ha].
  - rewrite filter_cons_True, (filter_cons_False (λ r, ¬ P r)) by tauto.
    cbn. by rewrite IH.
  - rewrite filter_cons_False, (filter_cons_True (λ r, ¬ P r)) by tauto.
    cbn. rewrite <- IH. lia.
Qed.

(** X2. A successful delete removes exactly the rows of the requested id
    and session: the table it leaves keeps every other row, in the order
    they had, and nothing else; when ids are unique it is one row
    shorter. *)
Theorem delete_removes_exactly_target (req : Request) (w : World) (s : string) :
  healthy w →
  cookies_sessionId req = Some s →
  z_string_uuid (params_id req) = true →
  (∃ r, r ∈ table w ∧ of_id_session (params_id req) s r) →
  table (world (serve DELETE_id req w)) `sublist_of` table w
  ∧ (∀ r, r ∈ table (world (serve DELETE_id req w))
          ↔ r ∈ table w ∧ ¬ of_id_session (params_id req) s r)
  ∧ (NoDup (id <$> table w) →
     S (length (table (world (serve DELETE_id req w)))) = length (table w)).
Proof.
  intros Hw Hc Hu Hex.
  destruct (head_filter_found _ _ Hex) as (t & Hh & _).
  rewrite (serve_delete_ok req w s t) by auto. cbn [world table after_call].
  unfold deleted_table. split; [apply sublist_filter |]. split.
  - intros r. rewrite list_elem_of_filter. tauto.
  - intros Hnd.
    pose proof (filter_split_length (of_id_session (params_id req) s) (table w))
      as Hlen.
    rewrite (one_match_of_unique_id _ _ _ Hnd Hex) in Hlen. exact Hlen.
Qed.

Lemma delete_removes_exactly_target_witness :
  healthy two_session_world
  ∧ table (world (serve DELETE_id (mkRequest (Some uuid_a) uuid_b None)
                    two_session_world))
    `sublist_of` table two_session_world.
Proof.
  split; [intros n; reflexivity |].
  apply (delete_removes_exactly_target (mkRequest (Some uuid_a) uuid_b None)
           two_session_world uuid_a).
  - intros n. reflexivity.
  - reflexivity.
  - reflexivity.
  - exists salary_row. split; [left | split; reflexivity].
Defined.

Example delete_example_keeps_other_session :
  table (world (serve DELETE_id (mkRequest (Some uuid_a) uuid_b None)
                  two_session_world))
  = [rent_row].
Proof. reflexivity. Qed.

(** X3. A row can be updated or deleted only under its own session.  An
    update or delete that names the id of a row of another session (ids
    being unique and canonical, the store answering) is answered 404,
    makes no write, and leaves the table as it was, whatever its body. *)
Theorem foreign_row_is_not_mutable
    (op : operation) (req : Request) (w : World) (r : Transaction) (B : string) :
  op = PUT_id ∨ op = DELETE_id →
  r ∈ table w →
  session_id r ≠ B →
  NoDup (id <$> table w) →
  z_string_uuid (id r) = true →
  faults w (calls w) = false →
  cookies_sessionId req = Some B →
  params_id req = id r →
  reply (serve op req w) = not_found_reply
  ∧ no_write (trace (serve op req w))
  ∧ table (world (serve op req w)) = table w.
Proof.
  intros Hop Hin Hne Hnd Hu Hf Hc Hp.
  pose proof (no_match_of_other_session _ _ _ Hnd Hin Hne) as Hnone.
  rewrite <- Hp in Hnone, Hu.
  destruct Hop as [-> | ->].
  - rewrite (serve_update_not_found req w B) by done.
    repeat split; repeat constructor.
  - rewrite (serve_delete_not_found req w B) by done.
    repeat split; repeat constructor.
Qed.

Lemma foreign_row_is_not_mutable_witness :
  salary_row ∈ table two_session_world
  ∧ reply (serve DELETE_id (mkRequest (Some uuid_d) uuid_b None)
             two_session_world)
    = not_found_reply.
Proof.
  split; [left |].
  apply (foreign_row_is_not_mutable DELETE_id
           (mkRequest (Some uuid_d) uuid_b None) two_session_world
           salary_row uuid_d).
  - by right.
  - left.
  - discriminate.
  - cbn. apply NoDup_cons. split.
    + intros H. apply list_elem_of_singleton in H. discriminate.
    + apply NoDup_singleton.
  - reflexivity.
  - reflexivity.
  - reflexivity.
  - reflexivity.
Defined.

(** X4. Creating and then deleting restores the table.  After a valid
    create under a non-empty session cookie, deleting the generated id
    under the same cookie answers 200 and leaves the table exactly as it
    was before the create — provided the generated id is a canonical UUID
    that the session did not use before. *)
Theorem create_then_delete_restores
    (req del : Request) (w : World) (b : TransactionBody) (s : string) :
  healthy w →
  cookies_sessionId req = Some s →
  s ≠ "" →
  createTransactionBodySchema (body req) = Some b →
  z_string_uuid (uuids w (drawn w)) = true →
  (∀ r, r ∈ table w → ¬ of_id_session (uuids w (drawn w)) s r) →
  cookies_sessionId del = Some s →
  params_id del = uuids w (drawn w) →
  statusCode (reply (serve DELETE_id del (world (serve POST_root req w))))
  = 200%Z
  ∧ table (world (serve DELETE_id del (world (serve POST_root req w))))
    = table w.
Proof.
  intros Hw Hc Hs Hb Hu Hfresh Hdc Hdp.
  rewrite (serve_create_reused req w b s) by auto. cbn [world].
  set (row := created_row (uuids w (drawn w)) s b).
  assert (Hrow : of_id_session (params_id del) s row) by (by rewrite Hdp).
  rewrite (serve_delete_ok del _ s row); cbn [table faults calls];
    [| done | by rewrite Hdp | apply Hw | apply Hw |].
  - cbn [reply statusCode world table after_call]. split; [reflexivity |].
    unfold deleted_table. rewrite filter_app, filter_cons_False by tauto.
    rewrite filter_nil, app_nil_r. apply filter_all.
    intros r Hr. rewrite Hdp. by apply Hfresh.
  - rewrite filter_app, Hdp, (filter_none _ _ Hfresh).
    by rewrite filter_cons_True.
Qed.

Lemma create_then_delete_restores_witness :
  healthy salary_world
  ∧ table
      (world
         (serve DELETE_id (mkRequest (Some uuid_a) uuid_c None)
            (world (serve POST_root (mkRequest (Some uuid_a) "" (Some rent))
                      salary_world))))
    = table salary_world.
Proof.
  split; [intros n; reflexivity |].
  apply (create_then_delete_restores (mkRequest (Some uuid_a) "" (Some rent))
           (mkRequest (Some uuid_a) uuid_c None) salary_world
           (mkBody "Rent" (1200 # 1) debit) uuid_a).
  - intros n. reflexivity.
  - reflexivity.
  - discriminate.
  - reflexivity.
  - reflexivity.
  - intros r Hr [Hid _]. cbn in Hr. apply list_elem_of_singleton in Hr as ->.
    discriminate.
  - reflexivity.
  - reflexivity.
Defined.

(** ** Updating *)

Lemma updated_table_head tid s b t r :
  head (filter (of_id_session tid s) t) = Some r →
  head (filter (of_id_session tid s) (updated_table tid s b t))
  = Some (set_title_amount (body_title b) (stored_amount b) r).
Proof.
  unfold updated_table. induction t as [| a t IH]; [discriminate |].
  rewrite fmap_cons. destruct (decide (of_id_session tid s a)) as [Ha | Ha].
  - rewrite filter_cons_True by done. intros [= ->].
    rewrite filter_cons_True by (by destruct Ha). reflexivity.
  - rewrite !filter_cons_False by done. exact IH.
Qed.

Lemma updated_table_idempotent tid s b t :
  updated_table tid s b (updated_table tid s b t) = updated_table tid s b t.
Proof.
  unfold updated_table. rewrite <- list_fmap_compose. apply list_fmap_ext.
  intros i r _. cbn. destruct (decide (of_id_session tid s r)) as [Hr | Hr].
  - rewrite decide_True by (by destruct Hr). reflexivity.
  - by rewrite decide_False.
Qed.

Lemma updated_table_sessions tid s b t :
  session_id <$> updated_table tid s b t = session_id <$> t.
Proof.
  unfold updated_table. rewrite <- list_fmap_compose. apply list_fmap_ext.
  intros i r _. cbn. by destruct (decide (of_id_session tid s r)).
Qed.

(** X5. Reading back an update.  After a valid update of a row the session
    owns (the store answering), a get-one for the same id and session
    answers 200 with a record of that id and session whose title is the
    request's title and whose amount is the sign-adjusted request
    amount. *)
Theorem update_then_get_round_trip
    (req : Request) (w : World) (s : string) (b : TransactionBody) :
  healthy w →
  cookies_sessionId req = Some s →
  z_string_uuid (params_id req) = true →
  updateTransactionBodySchema (body req) = Some b →
  (∃ r, r ∈ table w ∧ of_id_session (params_id req) s r) →
  ∃ t,
    reply (serve GET_id req (world (serve PUT_id req w)))
    = mkReply 200 (Some (PTransaction t)) []
    ∧ id t = params_id req
    ∧ session_id t = s
    ∧ title t = body_title b
    ∧ amount t = sign_adjusted (body_type b) (body_amount b).
Proof.
  intros Hw Hc Hu Hb Hex.
  destruct (head_filter_found _ _ Hex) as (r & Hh & _ & Hid & Hs).
  rewrite (serve_update_ok req w s r b) by auto. cbn [world].
  rewrite (serve_get_one req _ s) by (auto; apply Hw).
  cbn [reply table after_call].
  rewrite (updated_table_head _ _ b _ r Hh).
  eexists. split; [reflexivity |]. cbn.
  repeat split; auto. apply stored_amount_sign_adjusted.
Qed.

Lemma update_then_get_round_trip_witness :
  healthy salary_world
  ∧ ∃ t,
      reply
        (serve GET_id (mkRequest (Some uuid_a) uuid_b (Some rent))
           (world (serve PUT_id (mkRequest (Some uuid_a) uuid_b (Some rent))
                     salary_world)))
      = mkReply 200 (Some (PTransaction t)) []
      ∧ id t = uuid_b
      ∧ session_id t = uuid_a
      ∧ title t = "Rent"
      ∧ amount t = sign_adjusted debit (1200 # 1).
Proof.
  split; [intros n; reflexivity |].
  apply (update_then_get_round_trip (mkRequest (Some uuid_a) uuid_b (Some rent))
           salary_world uuid_a (mkBody "Rent" (1200 # 1) debit)).
  - intros n. reflexivity.
  - reflexivity.
  - reflexivity.
  - reflexivity.
  - exists salary_row. split; [left | split; reflexivity].
Defined.

(** X6. Updating is idempotent.  Sending the same valid update a second
    time is answered 200 again and leaves the table as the first update
    left it. *)
Theorem update_is_idempotent
    (req : Request) (w : World) (s : string) (b : TransactionBody) :
  healthy w →
  cookies_sessionId req = Some s →
  z_string_uuid (params_id req) = true →
  updateTransactionBodySchema (body req) = Some b →
  (∃ r, r ∈ table w ∧ of_id_session (params_id req) s r) →
  statusCode (reply (serve PUT_id req (world (serve PUT_id req w)))) = 200%Z
  ∧ table (world (serve PUT_id req (world (serve PUT_id req w))))
    = table (world (serve PUT_id req w)).
Proof.
  intros Hw Hc Hu Hb Hex.
  destruct (head_filter_found _ _ Hex) as (r & Hh & _).
  rewrite (serve_update_ok req w s r b) by auto. cbn [world].
  rewrite (serve_update_ok req _ s
             (set_title_amount (body_title b) (stored_amount b) r) b);
    cbn [table faults calls after_call];
    [| done | done | apply Hw | apply Hw | by apply updated_table_head | done].
  cbn [reply statusCode world table after_call]. split; [reflexivity |].
  apply updated_table_idempotent.
Qed.

Lemma update_is_idempotent_witness :
  healthy salary_world
  ∧ table
      (world
         (serve PUT_id (mkRequest (Some uuid_a) uuid_b (Some rent))
            (world (serve PUT_id (mkRequest (Some uuid_a) uuid_b (Some rent))
                      salary_world))))
    = table (world (serve PUT_id (mkRequest (Some uuid_a) uuid_b (Some rent))
                      salary_world)).
Proof.
  split; [intros n; reflexivity |].
  apply (update_is_idempotent (mkRequest (Some uuid_a) uuid_b (Some rent))
           salary_world uuid_a (mkBody "Rent" (1200 # 1) debit)).
  - intros n. reflexivity.
  - reflexivity.
  - reflexivity.
  - reflexivity.
  - exists salary_row. split; [left | split; reflexivity].
Defined.

(** X7. An update never changes which rows there are or whom they belong
    to: for every update request and every world, the table afterwards
    lists the same ids and the same session ids, in the same order. *)
Theorem update_keeps_ids_and_owners (req : Request) (w : World) :
  id <$> table (world (serve PUT_id req w)) = id <$> table w
  ∧ session_id <$> table (world (serve PUT_id req w))
    = session_id <$> table w.
Proof.
  destruct (serve_table_cases PUT_id req w)
    as [-> | [(b & s & n & Hop & _) | [(b & s & _ & ->) | (s & Hop & _)]]];
    try discriminate; [done |].
  by rewrite updated_table_ids, updated_table_sessions.
Qed.

(** ** Every request, whatever it holds *)

Ltac in_list := repeat first [apply list_elem_of_here | apply list_elem_of_further].

(** X8. Every request is answered exactly once.  Whatever the operation,
    the request and the state of the store, the exchange ends with one
    reply being sent (and no other before it), whose status is one the
    route can send: 200, 401 or 500 for list and summary, also 404 for
    get-one, update and delete, and 201 or 500 for create.  No handler
    answers 401 itself: that status only comes from the guard, on a
    guarded route without a cookie. *)
Theorem every_request_is_answered_once
    (op : operation) (req : Request) (w : World) :
  is_Some (payload (reply (serve op req w)))
  ∧ last (trace (serve op req w))
    = Some (EvSend (statusCode (reply (serve op req w))))
  ∧ sends (trace (serve op req w)) = 1
  ∧ statusCode (reply (serve op req w)) ∈ possible_status op
  ∧ (statusCode (reply (serve op req w)) = 401%Z →
     op ≠ POST_root ∧ cookies_sessionId req = None).
Proof.
  destruct op; exec;
    (split; [by eexists |]); (split; [reflexivity |]);
    (split; [reflexivity |]); (split; [cbn; in_list |]);
    intros H; first [discriminate H | split; [discriminate | done]].
Qed.

Lemma every_request_is_answered_once_witness :
  statusCode (reply (serve GET_id (mkRequest None uuid_b None) salary_world))
  = 401%Z
  ∧ GET_id ≠ POST_root
  ∧ cookies_sessionId (mkRequest None uuid_b None) = None.
Proof.
  split; [reflexivity |].
  destruct (every_request_is_answered_once GET_id (mkRequest None uuid_b None)
              salary_world) as (_ & _ & _ & _ & H).
  apply H. reflexivity.
Defined.

(** ** What a session can and cannot touch *)

Lemma serve_table_owner op req w s :
  cookies_sessionId req = Some s →
  s ≠ "" →
  table (world (serve op req w)) = table w
  ∨ (∃ b n,
       op = POST_root
       ∧ table (world (serve op req w))
         = table w ++ [created_row (uuids w n) s b])
  ∨ (∃ b,
       op = PUT_id
       ∧ table (world (serve op req w))
         = updated_table (params_id req) s b (table w))
  ∨ (op = DELETE_id
     ∧ table (world (serve op req w))
       = deleted_table (params_id req) s (table w)).
Proof.
  intros Hc Hs.
  destruct (serve_table_cases op req w)
    as [-> | [(b & s' & n & -> & _ & Ht) | [(b & s' & -> & Ht) | (s' & -> & Ht)]]];
    [by left | | |].
  - destruct (createTransactionBodySchema (body req)) as [b' |] eqn:Hb.
    2:{ rewrite serve_create_invalid by done. by left. }
    destruct (faults w (calls w)) eqn:Hf.
    + rewrite (serve_create_store_down_reused req w b' s) by done. by left.
    + rewrite (serve_create_reused req w b' s) by done. right; left.
      by do 2 eexists.
  - destruct (z_string_uuid (params_id req)) eqn:Hu.
    2:{ rewrite (serve_invalid_id PUT_id req w s) by auto. by left. }
    destruct (faults w (calls w)) eqn:Hf.
    { rewrite (serve_update_store_down req w s) by done. by left. }
    destruct (head (filter (of_id_session (params_id req) s) (table w)))
      as [t |] eqn:Hh.
    2:{ rewrite (serve_update_not_found req w s) by done. by left. }
    destruct (createTransactionBodySchema (body req)) as [b' |] eqn:Hb.
    2:{ rewrite (serve_update_invalid_body req w s t) by done. by left. }
    destruct (faults w (S (calls w))) eqn:Hf2.
    + rewrite (serve_update_write_down req w s t b') by done. by left.
    + rewrite (serve_update_ok req w s t b') by done. right; right; left.
      by eexists.
  - destruct (z_string_uuid (params_id req)) eqn:Hu.
    2:{ rewrite (serve_invalid_id DELETE_id req w s) by auto. by left. }
    destruct (faults w (calls w)) eqn:Hf.
    { rewrite (serve_delete_store_down req w s) by done. by left. }
    destruct (head (filter (of_id_session (params_id req) s) (table w)))
      as [t |] eqn:Hh.
    2:{ rewrite (serve_delete_not_found req w s) by done. by left. }
    destruct (faults w (S (calls w))) eqn:Hf2.
    + rewrite (serve_delete_write_down req w s t) by done. by left.
    + rewrite (serve_delete_ok req w s t) by done. by right; right; right.
Qed.

Lemma updated_table_other_session tid s b t B :
  s ≠ B →
  filter (of_session B) (updated_table tid s b t) = filter (of_session B) t.
Proof.
  intros Hne. unfold updated_table. induction t as [| a t IH]; [done |].
  rewrite fmap_cons. destruct (decide (of_id_session tid s a)) as [Ha | Ha].
  - destruct Ha as [_ Ha].
    rewrite !filter_cons_False by (unfold of_session; cbn; congruence).
    exact IH.
  - destruct (decide (of_session B a)) as [HB | HB].
    + rewrite !filter_cons_True by done. by rewrite IH.
    + rewrite !filter_cons_False by done. exact IH.
Qed.

Lemma deleted_table_other_session tid s t B :
  s ≠ B →
  filter (of_session B) (deleted_table tid s t) = filter (of_session B) t.
Proof.
  intros Hne. unfold deleted_table. induction t as [| a t IH]; [done |].
  destruct (decide (of_id_session tid s a)) as [Ha | Ha].
  - rewrite (filter_cons_False (λ r, ¬ of_id_session tid s r)) by tauto.
    destruct Ha as [_ Ha].
    by rewrite (filter_cons_False (of_session B))
      by (unfold of_session; congruence).
  - rewrite (filter_cons_True (λ r, ¬ of_id_session tid s r)) by done.
    destruct (decide (of_session B a)) as [HB | HB].
    + rewrite !filter_cons_True by done. by rewrite IH.
    + rewrite !filter_cons_False by done. exact IH.
Qed.

(** X9. What one session writes, another never sees.  Whatever request is
    served under a non-empty session cookie [s] — any operation, any id,
    any body, whether or not the store answers — the rows of every other
    session [B] are afterwards exactly what they were, in the same order;
    so the list and the summary of [B] are not affected. *)
Theorem writes_are_confined_to_session
    (op : operation) (req : Request) (w : World) (s B : string) :
  cookies_sessionId req = Some s →
  s ≠ "" →
  s ≠ B →
  filter (of_session B) (table (world (serve op req w)))
  = filter (of_session B) (table w).
Proof.
  intros Hc Hs Hne.
  destruct (serve_table_owner op req w s Hc Hs)
    as [-> | [(b & n & _ & ->) | [(b & _ & ->) | [_ ->]]]].
  - done.
  - rewrite filter_app, filter_cons_False, filter_nil, app_nil_r; [done |].
    unfold of_session. cbn. congruence.
  - by apply updated_table_other_session.
  - by apply deleted_table_other_session.
Qed.

Lemma writes_are_confined_to_session_witness :
  cookies_sessionId (mkRequest (Some uuid_a) uuid_b None) = Some uuid_a
  ∧ filter (of_session uuid_d)
      (table (world (serve DELETE_id (mkRequest (Some uuid_a) uuid_b None)
                       two_session_world)))
    = filter (of_session uuid_d) (table two_session_world).
Proof.
  split; [reflexivity |].
  apply (writes_are_confined_to_session DELETE_id
           (mkRequest (Some uuid_a) uuid_b None) two_session_world
           uuid_a uuid_d).
  - reflexivity.
  - discriminate.
  - discriminate.
Defined.

(** X10. The three reading routes only read.  A list, get-one or summary
    request — with or without cookie, with any id, whether or not the
    store answers — leaves the table as it was, draws no UUID, sets no
    cookie and makes no write call. *)
Theorem reads_change_nothing (op : operation) (req : Request) (w : World) :
  read_only op →
  table (world (serve op req w)) = table w
  ∧ drawn (world (serve op req w)) = drawn w
  ∧ Forall (λ e, is_uuid_draw e = false) (trace (serve op req w))
  ∧ setCookies (reply (serve op req w)) = []
  ∧ no_write (trace (serve op req w)).
Proof.
  intros [-> | [-> | ->]]; exec; repeat split; repeat constructor.
Qed.

Lemma reads_change_nothing_witness :
  read_only GET_summary
  ∧ table (world (serve GET_summary (mkRequest (Some uuid_a) "" None)
                    salary_world))
    = table salary_world.
Proof.
  split; [right; right; reflexivity |].
  apply (reads_change_nothing GET_summary (mkRequest (Some uuid_a) "" None)
           salary_world).
  right; right; reflexivity.
Defined.

(** ** Creating *)

(** X11. A create whose insert the store rejects still sets the cookie.
    For a valid body sent without a session cookie, the handler mints the
    session identifier and sets the [sessionId] cookie before it inserts;
    when the insert fails, the reply is the 500 error, it carries that
    cookie all the same, and the table holds no row for it. *)
Theorem failed_create_still_sets_cookie
    (req : Request) (w : World) (b : TransactionBody) :
  createTransactionBodySchema (body req) = Some b →
  cookies_sessionId req = None →
  faults w (calls w) = true →
  statusCode (reply (serve POST_root req w)) = 500%Z
  ∧ payload (reply (serve POST_root req w))
    = Some (PError "Internal Server Error")
  ∧ cookie_value <$> setCookies (reply (serve POST_root req w))
    = [uuids w (drawn w)]
  ∧ table (world (serve POST_root req w)) = table w
  ∧ drawn (world (serve POST_root req w)) = S (S (drawn w)).
Proof.
  intros Hb Hc Hf.
  rewrite (serve_create_store_down_minted req w b) by (rewrite ?Hc; done).
  repeat split.
Qed.

Lemma failed_create_still_sets_cookie_witness :
  cookies_sessionId (mkRequest None "" (Some salary)) = None
  ∧ cookie_value
    <$> setCookies
          (reply (serve POST_root (mkRequest None "" (Some salary))
                    (mkWorld [] (λ _, true) 0 sample_source 0)))
    = [uuid_a].
Proof.
  split; [reflexivity |].
  apply (failed_create_still_sets_cookie (mkRequest None "" (Some salary))
           (mkWorld [] (λ _, true) 0 sample_source 0)
           (mkBody "Salary" (5000 # 1) credit)).
  - reflexivity.
  - reflexivity.
  - reflexivity.
Defined.

(** X12. The list is in insertion order.  After a valid create under a
    non-empty session cookie (the store answering), the list of that
    session is the list it had before followed by the new row, which
    carries the generated id, the request's title and the sign-adjusted
    amount. *)
Theorem list_after_create_appends
    (req lst : Request) (w : World) (b : TransactionBody) (s : string) :
  healthy w →
  cookies_sessionId req = Some s →
  s ≠ "" →
  createTransactionBodySchema (body req) = Some b →
  cookies_sessionId lst = Some s →
  ∃ before row,
    payload (reply (serve GET_root lst w)) = Some (PTransactions before)
    ∧ payload (reply (serve GET_root lst (world (serve POST_root req w))))
      = Some (PTransactions (before ++ [row]))
    ∧ id row = uuids w (drawn w)
    ∧ session_id row = s
    ∧ title row = body_title b
    ∧ amount row = sign_adjusted (body_type b) (body_amount b).
Proof.
  intros Hw Hc Hs Hb Hl.
  rewrite (serve_create_reused req w b s) by auto. cbn [world].
  rewrite !(serve_list lst _ s) by (auto; apply Hw).
  cbn [reply payload table].
  rewrite filter_app, filter_cons_True, filter_nil by done.
  do 2 eexists. split; [reflexivity |]. split; [reflexivity |]. cbn.
  repeat split. apply stored_amount_sign_adjusted.
Qed.

Lemma list_after_create_appends_witness :
  healthy salary_world
  ∧ ∃ before row,
      payload (reply (serve GET_root (mkRequest (Some uuid_a) "" None)
                        salary_world))
      = Some (PTransactions before)
      ∧ payload
          (reply
             (serve GET_root (mkRequest (Some uuid_a) "" None)
                (world (serve POST_root (mkRequest (Some uuid_a) "" (Some rent))
                          salary_world))))
        = Some (PTransactions (before ++ [row]))
      ∧ id row = uuid_c
      ∧ session_id row = uuid_a
      ∧ title row = "Rent"
      ∧ amount row = sign_adjusted debit (1200 # 1).
Proof.
  split; [intros n; reflexivity |].
  apply (list_after_create_appends (mkRequest (Some uuid_a) "" (Some rent))
           (mkRequest (Some uuid_a) "" None) salary_world
           (mkBody "Rent" (1200 # 1) debit) uuid_a).
  - intros n. reflexivity.
  - reflexivity.
  - discriminate.
  - reflexivity.
  - reflexivity.
Defined.

(** X13. Creating twice makes two rows.  The create handler has no
    idempotency: the same valid request served twice under a non-empty
    session cookie (the store answering) appends two rows that agree in
    title, amount and session and carry the two ids drawn one after the
    other. *)
Theorem repeated_create_appends_twice
    (req : Request) (w : World) (b : TransactionBody) (s : string) :
  healthy w →
  cookies_sessionId req = Some s →
  s ≠ "" →
  createTransactionBodySchema (body req) = Some b →
  table (world (serve POST_root req (world (serve POST_root req w))))
  = table w
    ++ [mkTransaction (uuids w (drawn w)) (body_title b)
          (sign_adjusted (body_type b) (body_amount b)) s;
        mkTransaction (uuids w (S (drawn w))) (body_title b)
          (sign_adjusted (body_type b) (body_amount b)) s].
Proof.
  intros Hw Hc Hs Hb.
  rewrite (serve_create_reused req w b s) by auto. cbn [world].
  rewrite (serve_create_reused req _ b s) by (auto; apply Hw).
  cbn [world table uuids drawn]. rewrite <- app_assoc.
  unfold created_row. by rewrite stored_amount_sign_adjusted.
Qed.

Lemma repeated_create_appends_twice_witness :
  healthy empty_world
  ∧ table
      (world
         (serve POST_root (mkRequest (Some uuid_d) "" (Some rent))
            (world (serve POST_root (mkRequest (Some uuid_d) "" (Some rent))
                      empty_world))))
    = table empty_world
      ++ [mkTransaction uuid_a "Rent" (sign_adjusted debit (1200 # 1)) uuid_d;
          mkTransaction uuid_b "Rent" (sign_adjusted debit (1200 # 1)) uuid_d].
Proof.
  split; [intros n; reflexivity |].
  apply (repeated_create_appends_twice (mkRequest (Some uuid_d) "" (Some rent))
           empty_world (mkBody "Rent" (1200 # 1) debit) uuid_d).
  - intros n. reflexivity.
  - reflexivity.
  - discriminate.
  - reflexivity.
Defined.

(** X14. The type is not stored.  A create with type debit and amount [a]
    and a create with type credit and amount [-a] (same title, same
    cookie) run the very same exchange: same reply, same store calls, same
    table afterwards.  Likewise a debit with a negative amount is stored
    as a positive amount. *)
Theorem debit_is_credit_of_negation
    (req1 req2 : Request) (w : World) (t : string) (a : Q) :
  cookies_sessionId req1 = cookies_sessionId req2 →
  createTransactionBodySchema (body req1) = Some (mkBody t a debit) →
  createTransactionBodySchema (body req2) = Some (mkBody t (- a) credit) →
  serve POST_root req1 w = serve POST_root req2 w
  ∧ ((a < 0)%Q → faults w (calls w) = false →
     ∃ row, table (world (serve POST_root req1 w)) = table w ++ [row]
            ∧ (0 < amount row)%Q).
Proof.
  intros Hc Hb1 Hb2. split.
  - step. rewrite Hb1, Hb2, Hc. cbn [body_type body_amount body_title].
    rewrite times_minus_one. reflexivity.
  - intros Ha Hf.
    destruct (serve_create_table req1 w _ Hb1 Hf) as (new_id & session & ->).
    eexists. split; [reflexivity |]. cbn.
    unfold stored_amount. cbn. rewrite times_minus_one.
    apply (Qopp_lt_compat a 0) in Ha. exact Ha.
Qed.

Lemma debit_is_credit_of_negation_witness :
  cookies_sessionId (mkRequest None "" (Some rent))
  = cookies_sessionId
      (mkRequest None "" (Some (body_of "Rent" (-1200 # 1) "credit")))
  ∧ serve POST_root (mkRequest None "" (Some rent)) empty_world
    = serve POST_root
        (mkRequest None "" (Some (body_of "Rent" (-1200 # 1) "credit")))
        empty_world.
Proof.
  split; [reflexivity |].
  apply (debit_is_credit_of_negation (mkRequest None "" (Some rent))
           (mkRequest None "" (Some (body_of "Rent" (-1200 # 1) "credit")))
           empty_world "Rent" (1200 # 1)).
  - reflexivity.
  - reflexivity.
  - reflexivity.
Defined.

(** ** The body schema *)

Lemma schema_ignores_key (m : gmap string json) (k : string) (v : json) :
  k ≠ "title" → k ≠ "amount" → k ≠ "type" →
  createTransactionBodySchema (Some (JObj (<[k := v]> m)))
  = createTransactionBodySchema (Some (JObj m)).
Proof.
  intros Ht Ha Hty. unfold createTransactionBodySchema.
  by rewrite !lookup_insert_ne.
Qed.

(** X15. Fields the schema does not name are ignored.  Adding to the body
    any field other than title, amount and type changes nothing: whatever
    the operation, the exchange — reply, store calls and world afterwards
    — is the one the request gets without that field. *)
Theorem extra_body_fields_are_ignored
    (op : operation) (c : option string) (p : string)
    (m : gmap string json) (k : string) (v : json) (w : World) :
  k ≠ "title" → k ≠ "amount" → k ≠ "type" →
  serve op (mkRequest c p (Some (JObj (<[k := v]> m)))) w
  = serve op (mkRequest c p (Some (JObj m))) w.
Proof.
  intros Ht Ha Hty. destruct op; step; cbn [body cookies_sessionId params_id];
    rewrite ?(schema_ignores_key m k v Ht Ha Hty); reflexivity.
Qed.

Lemma extra_body_fields_are_ignored_witness :
  "note" ≠ "title"
  ∧ serve POST_root
      (mkRequest None "" (Some (JObj (<["note" := JBool true]> ∅)))) empty_world
    = serve POST_root (mkRequest None "" (Some (JObj ∅))) empty_world.
Proof.
  split; [discriminate |].
  apply (extra_body_fields_are_ignored POST_root None "" ∅ "note" (JBool true)
           empty_world); discriminate.
Defined.


(** ** Fetching one row *)

(** X17. Get-one finds exactly the session's own row.  With a cookie, a
    canonical id and the store answering, the reply is 200 with a row of
    the table that has the requested id and the cookie's session whenever
    there is one, and 404 exactly when there is none. *)
Theorem get_one_finds_own_row (req : Request) (w : World) (s : string) :
  cookies_sessionId req = Some s →
  z_string_uuid (params_id req) = true →
  faults w (calls w) = false →
  ((∃ r, r ∈ table w ∧ of_id_session (params_id req) s r) →
   ∃ t, reply (serve GET_id req w) = mkReply 200 (Some (PTransaction t)) []
        ∧ t ∈ table w ∧ id t = params_id req ∧ session_id t = s)
  ∧ (reply (serve GET_id req w) = not_found_reply
     ↔ ∀ r, r ∈ table w → ¬ of_id_session (params_id req) s r)
  ∧ table (world (serve GET_id req w)) = table w.
Proof.
  intros Hc Hu Hf. rewrite (serve_get_one req w s) by done. cbn [reply world].
  split; [| split; [| reflexivity]].
  - intros Hex. destruct (head_filter_found _ _ Hex) as (t & -> & Hin & Hid & Hs).
    by exists t.
  - unfold not_found_reply.
    destruct (head (filter (of_id_session (params_id req) s) (table w)))
      as [t |] eqn:Hh.
    + split; [discriminate |]. intros Hall.
      apply head_elem_of, list_elem_of_filter in Hh as [HP Hin].
      by destruct (Hall t Hin).
    + split; [| reflexivity]. intros _.
      exact (proj1 (head_filter_none _ _) Hh).
Qed.

Lemma get_one_finds_own_row_witness :
  cookies_sessionId (mkRequest (Some uuid_a) uuid_b None) = Some uuid_a
  ∧ ∃ t,
      reply (serve GET_id (mkRequest (Some uuid_a) uuid_b None) two_session_world)
      = mkReply 200 (Some (PTransaction t)) []
      ∧ t ∈ table two_session_world
      ∧ id t = uuid_b
      ∧ session_id t = uuid_a.
Proof.
  split; [reflexivity |].
  destruct (get_one_finds_own_row (mkRequest (Some uuid_a) uuid_b None)
              two_session_world uuid_a eq_refl eq_refl eq_refl) as [H _].
  apply H. exists salary_row. split; [left | split; reflexivity].
Defined.

(** ** Store failures *)

(** X18. A store failure is answered 500 and writes nothing.  A request
    makes at most two store calls, and the world's call counter advances
    by their number.  If any of the calls it made was rejected by the
    store, the reply is 500 and the table is left as it was; so a reply
    other than 500 means every call made was answered. *)
Theorem store_failure_is_500 (op : operation) (req : Request) (w : World) :
  store_calls (trace (serve op req w)) ≤ 2
  ∧ calls (world (serve op req w))
    = calls w + store_calls (trace (serve op req w))
  ∧ ∀ k,
      k < store_calls (trace (serve op req w)) →
      faults w (calls w + k) = true →
      statusCode (reply (serve op req w)) = 500%Z
      ∧ table (world (serve op req w)) = table w.
Proof.
  destruct op; exec; cbn;
    (split; [lia |]); (split; [lia |]);
    intros k Hk Hbad;
    try (split; reflexivity);
    destruct k as [| [| k]]; rewrite ?Nat.add_0_r, ?Nat.add_1_r in Hbad;
    try congruence; lia.
Qed.

Lemma store_failure_is_500_witness :
  faults (mkWorld [salary_row] (λ n, (n =? 2)%nat) 1 sample_source 2) (1 + 1)
  = true
  ∧ statusCode
      (reply (serve PUT_id (mkRequest (Some uuid_a) uuid_b (Some rent))
                (mkWorld [salary_row] (λ n, (n =? 2)%nat) 1 sample_source 2)))
    = 500%Z
  ∧ table
      (world (serve PUT_id (mkRequest (Some uuid_a) uuid_b (Some rent))
                (mkWorld [salary_row] (λ n, (n =? 2)%nat) 1 sample_source 2)))
    = [salary_row].
Proof.
  split; [reflexivity |].
  destruct (store_failure_is_500 PUT_id
              (mkRequest (Some uuid_a) uuid_b (Some rent))
              (mkWorld [salary_row] (λ n, (n =? 2)%nat) 1 sample_source 2))
    as (_ & _ & H).
  apply (H 1).
  - vm_compute. lia.
  - reflexivity.
Defined.

(** ** A new session *)

(** X19. A new session sees only what it created.  After a valid create
    without a cookie (the store answering, the minted identifier not yet
    owning any row), the list under the issued cookie holds exactly the
    new row, and the summary is that row's sign-adjusted amount. *)
Theorem new_session_sees_only_its_row
    (req rd : Request) (w : World) (b : TransactionBody) :
  healthy w →
  cookies_sessionId req = None →
  createTransactionBodySchema (body req) = Some b →
  (∀ r, r ∈ table w → session_id r ≠ uuids w (drawn w)) →
  cookies_sessionId rd = Some (uuids w (drawn w)) →
  ∃ row a,
    payload (reply (serve GET_root rd (world (serve POST_root req w))))
    = Some (PTransactions [row])
    ∧ title row = body_title b
    ∧ amount row = sign_adjusted (body_type b) (body_amount b)
    ∧ payload (reply (serve GET_summary rd (world (serve POST_root req w))))
      = Some (PSummary (Some a))
    ∧ (a == sign_adjusted (body_type b) (body_amount b))%Q.
Proof.
  intros Hw Hc Hb Hfresh Hrd.
  rewrite (serve_create_minted req w b) by (rewrite ?Hc; auto). cbn [world].
  rewrite (serve_list rd _ (uuids w (drawn w))) by (auto; apply Hw).
  rewrite (serve_summary rd _ (uuids w (drawn w))) by (auto; apply Hw).
  cbn [reply payload table].
  rewrite filter_app, (filter_none (of_session (uuids w (drawn w))) (table w))
    by exact Hfresh.
  rewrite filter_cons_True, filter_nil by done. cbn.
  do 2 eexists. split; [reflexivity |]. cbn.
  rewrite stored_amount_sign_adjusted.
  repeat split. apply Qplus_0_r.
Qed.

Lemma new_session_sees_only_its_row_witness :
  healthy salary_world
  ∧ ∃ row a,
      payload
        (reply
           (serve GET_root (mkRequest (Some uuid_c) "" None)
              (world (serve POST_root (mkRequest None "" (Some salary))
                        salary_world))))
      = Some (PTransactions [row])
      ∧ title row = "Salary"
      ∧ amount row = sign_adjusted credit (5000 # 1)
      ∧ payload
          (reply
             (serve GET_summary (mkRequest (Some uuid_c) "" None)
                (world (serve POST_root (mkRequest None "" (Some salary))
                          salary_world))))
        = Some (PSummary (Some a))
      ∧ (a == sign_adjusted credit (5000 # 1))%Q.
Proof.
  split; [intros n; reflexivity |].
  apply (new_session_sees_only_its_row (mkRequest None "" (Some salary))
           (mkRequest (Some uuid_c) "" None) salary_world
           (mkBody "Salary" (5000 # 1) credit)).
  - intros n. reflexivity.
  - reflexivity.
  - reflexivity.
  - intros r Hr. cbn in Hr. apply list_elem_of_singleton in Hr as ->.
    discriminate.
  - reflexivity.
Defined.
